(** * alert_watcher: a shallow embedding of [watcher/alert_watcher.py]

    The watcher tails an Nginx access log and, for each line, extracts a few
    fields with regular expressions, pushes the HTTP status on a bounded
    deque, detects a change of serving pool, computes the share of 5xx
    statuses in the deque, and posts rate-limited alerts to a webhook.

    The embedding keeps the module's global variables in a [State] record,
    the environment variables in a [Config] record, and what one call of
    [handle_line] reads from the outside world (the clock, the transport's
    answer) in an [Env] record.  What the call writes to the outside world
    (console lines, the webhook request) is returned as a list of [Output]s.
    Python floats are IEEE 754 binary64 values, embedded with the Standard
    Library's executable specification [SpecFloat]. *)

From Stdlib Require Import ZArith Ascii String List Bool Lia.
From Stdlib Require Import Floats.SpecFloat.
From stdpp Require Import base option list gmap strings.

Local Open Scope string_scope.
Local Open Scope Z_scope.
Local Open Scope list_scope.

(** ** Exceptions *)

(** A Python call either returns or raises. *)
Inductive exn : Type :=
| AttributeError
| ValueError.

Inductive result (A : Type) : Type :=
| Ok (a : A)
| Raise (e : exn).
Arguments Ok {A} a.
Arguments Raise {A} e.

#[export] Instance result_ret : MRet result := fun _ a => Ok a.

#[export] Instance result_bind : MBind result := fun _ _ k r =>
  match r with
  | Ok a => k a
  | Raise e => Raise e
  end.

(** [try: body except Exception: handler] *)
Definition try_except {A : Type} (body : result A) (handler : A) : result A :=
  match body with
  | Ok a => Ok a
  | Raise _ => Ok handler
  end.

(** ** Text

    A Python [str] is a sequence of Unicode code points; a line of the log
    is one, decoded from UTF-8 (line 153). *)

Abbreviation text := (list Z).

(** The text of a literal of the source (all of them are ASCII). *)
Definition str (s : string) : text :=
  map (λ a, Z.of_N (N_of_ascii a)) (list_ascii_of_string s).

(** ** Regular expressions of the module

    In a [str] pattern, [\s] matches the characters for which [str.isspace]
    holds and [\d] the decimal digits of Unicode. *)

Definition is_space (c : Z) : bool :=
  ((9 <=? c) && (c <=? 13)) || ((28 <=? c) && (c <=? 32))
  || (c =? 133) || (c =? 160) || (c =? 5760)
  || ((8192 <=? c) && (c <=? 8202)) || (c =? 8232) || (c =? 8233)
  || (c =? 8239) || (c =? 8287) || (c =? 12288).

(** The decimal digits come in runs of ten, from a zero to a nine; these
    are the zeros (Unicode 14.0, the database of Python 3.11): the ASCII
    digits, then the Arabic-Indic ones, and so on. *)
Definition decimal_zeros : list Z :=
  [48; 1632; 1776; 1984; 2406; 2534; 2662; 2790; 2918; 3046; 3174; 3302;
   3430; 3558; 3664; 3792; 3872; 4160; 4240; 6112; 6160; 6470; 6608; 6784;
   6800; 6992; 7088; 7232; 7248; 42528; 43216; 43264; 43472; 43504; 43600;
   44016; 65296; 66720; 68912; 69734; 69872; 69942; 70096; 70384; 70736;
   70864; 71248; 71360; 71472; 71904; 72016; 72784; 73040; 73120; 92768;
   92864; 93008; 120782; 120792; 120802; 120812; 120822; 123200; 123632;
   125264; 130032].

(** The value of a decimal digit, [None] for any other character. *)
Definition decimal (c : Z) : option Z :=
  match find (λ z, (z <=? c) && (c <=? z + 9)) decimal_zeros with
  | Some z => Some (c - z)
  | None => None
  end.

Definition is_digit (c : Z) : bool :=
  if decimal c is Some _ then true else false.

(** [[^\s]+] anchored at the head of [s], greedy: the longest run of
    characters that are not white space (empty when there is none). *)
Fixpoint nonspace_run (s : text) : text :=
  match s with
  | [] => []
  | c :: s' => if is_space c then [] else c :: nonspace_run s'
  end.

(** The literal [p] anchored at the head of [s]; returns what follows it. *)
Fixpoint strip_literal (p s : text) : option text :=
  match p, s with
  | [], _ => Some s
  | a :: p', b :: s' => if a =? b then strip_literal p' s' else None
  | _ :: _, [] => None
  end.

(** [key(?P<g>[^\s]+)] anchored at the head of [s]; returns group [g]. *)
Definition match_kv_here (key s : text) : option text :=
  match strip_literal key s with
  | Some rest =>
      match nonspace_run rest with
      | [] => None
      | v => Some v
      end
  | None => None
  end.

(** [re.compile(key + r'(?P<g>[^\s]+)').search(s)]: the leftmost match.
    [None] is Python's [None]; [Some v] is a match object whose group is [v]. *)
Fixpoint search_kv (key s : text) : option text :=
  match match_kv_here key s with
  | Some v => Some v
  | None =>
      match s with
      | [] => None
      | _ :: s' => search_kv key s'
      end
  end.

(** [\s(?P<status>\d{3})\s] anchored at the head of [s]. *)
Definition match_status_here (s : text) : option text :=
  match s with
  | w :: a :: b :: c :: w' :: _ =>
      if is_space w && is_digit a && is_digit b && is_digit c && is_space w'
      then Some [a; b; c]
      else None
  | _ => None
  end.

Fixpoint search_status (s : text) : option text :=
  match match_status_here s with
  | Some v => Some v
  | None =>
      match s with
      | [] => None
      | _ :: s' => search_status s'
      end
  end.

Definition RE_POOL : text -> option text := search_kv (str "pool=").
Definition RE_RELEASE : text -> option text := search_kv (str "release=").
Definition RE_STATUS : text -> option text := search_status.
Definition RE_UPSTREAM_STATUS : text -> option text := search_kv (str "upstream_status=").
Definition RE_UPSTREAM_ADDR : text -> option text := search_kv (str "upstream_addr=").

(** [m.group(name)]: on [None] Python raises [AttributeError]. *)
Definition group (m : option text) : result text :=
  match m with
  | Some v => Ok v
  | None => Raise AttributeError
  end.

Definition digit_value (c : Z) : Z := default 0 (decimal c).

Fixpoint digits_value (acc : Z) (s : text) : result Z :=
  match s with
  | [] => Ok acc
  | c :: s' =>
      if is_digit c then digits_value (10 * acc + digit_value c) s'
      else Raise ValueError
  end.

(** [int(s)] for a string of decimal digits, of any script; any other text
    is reported as [ValueError] (signs, blanks and underscores that [int]
    would accept never reach it: the only argument is a match of [\d{3}]). *)
Definition py_int (s : text) : result Z :=
  match s with
  | [] => Raise ValueError
  | _ => digits_value 0 s
  end.

(** ** Field extraction: lines 73-86 of [handle_line] *)

Record LogRecord : Type := {
  pool : text;
  release : text;
  status : Z;
  upstream_status : text;
  upstream_addr : text
}.

Definition extract_fields (line : text) : result LogRecord :=
  let pool_m := RE_POOL line in
  let release_m := RE_RELEASE line in
  let status_m := RE_STATUS line in
  let ustatus_m := RE_UPSTREAM_STATUS line in
  let uaddr_m := RE_UPSTREAM_ADDR line in
  pool ← (if pool_m is Some _ then group pool_m else Ok (str "unknown"));
  release ← (if release_m is Some _ then group release_m else Ok (str "unknown"));
  status ← try_except
             (if status_m is Some _ then s ← group status_m; py_int s else Ok 0)
             0;
  upstream_status ← (if ustatus_m is Some _ then group ustatus_m else Ok (str ""));
  upstream_addr ← (if uaddr_m is Some _ then group uaddr_m else Ok (str ""));
  Ok {| pool := pool; release := release; status := status;
        upstream_status := upstream_status; upstream_addr := upstream_addr |}.

(** ** The extraction, read declaratively *)

(** The pure reading of the extraction: each field is the group of its
    pattern's match, or its default. *)
Definition status_of_token (tok : text) : Z :=
  match tok with
  | [a; b; c] => 100 * digit_value a + 10 * digit_value b + digit_value c
  | _ => 0
  end.

Definition fields (line : text) : LogRecord :=
  {| pool := default (str "unknown") (RE_POOL line);
     release := default (str "unknown") (RE_RELEASE line);
     status := from_option status_of_token 0 (RE_STATUS line);
     upstream_status := default (str "") (RE_UPSTREAM_STATUS line);
     upstream_addr := default (str "") (RE_UPSTREAM_ADDR line) |}.

(** [key] occurs somewhere in [line]. *)
Definition occurs (key line : text) : Prop :=
  ∃ pre post, line = pre ++ key ++ post.

(** [tok] is a run of three digits of [line] with white space on both sides. *)
Definition status_token (line tok : text) : Prop :=
  ∃ pre w a b c w' post,
    line = pre ++ w :: a :: b :: c :: w' :: post
    ∧ is_space w = true ∧ is_digit a = true ∧ is_digit b = true
    ∧ is_digit c = true ∧ is_space w' = true
    ∧ tok = [a; b; c].

(** ** Python floats

    A Python [float] is an IEEE 754 binary64 number: 53 bits of precision,
    exponents below 1024. *)

Definition prec : Z := 53.
Definition emax : Z := 1024.

Abbreviation float := spec_float.

(** [float(z)] for an [int], as done by an arithmetic operator that mixes
    [int] and [float]. *)
Definition float_of_int (z : Z) : float := binary_normalize prec emax z 0 false.

(** [a / b] on two [int]s: Python's true division returns the float nearest
    to the exact quotient.  The integers are taken as mantissas with exponent
    0, so that the quotient is rounded once.  (A zero divisor raises
    [ZeroDivisionError] in Python; the only division of the module is by a
    length of at least 10, see [check_error_rate].) *)
Definition int_truediv (a b : Z) : float :=
  match a, b with
  | _, Z0 => S754_nan
  | Z0, _ => S754_zero (b <? 0)
  | _, _ =>
      let '(q, e, l) := SFdiv_core_binary prec emax (Z.abs a) 0 (Z.abs b) 0 in
      binary_round_aux prec emax (xorb (a <? 0) (b <? 0)) q e l
  end.

Definition float_mul (x y : float) : float := SFmul prec emax x y.

(** [x >= y] on floats (false as soon as one side is a NaN). *)
Definition float_ge (x y : float) : bool := SFleb y x.
Definition float_le (x y : float) : bool := SFleb x y.

(** ** [collections.deque] with a [maxlen] *)

Record deque : Type := {
  items : list Z;
  maxlen : Z
}.

(** [deque(maxlen=n)]: a negative [n] raises [ValueError]. *)
Definition deque_new (n : Z) : result deque :=
  if n <? 0 then Raise ValueError
  else Ok {| items := []; maxlen := n |}.

Definition len (d : deque) : Z := Z.of_nat (length (items d)).

(** [d.append(x)]: the item is added on the right, and when the deque has
    outgrown [maxlen] the leftmost item is dropped. *)
Definition append (x : Z) (d : deque) : deque :=
  let items' := items d ++ [x] in
  {| items := if maxlen d <? Z.of_nat (length items') then tail items' else items';
     maxlen := maxlen d |}.

(** ** Configuration, state, and the outside world *)

Record Config : Type := {
  SLACK_WEBHOOK_URL : option string;
  ERROR_RATE_THRESHOLD : float;
  WINDOW_SIZE : Z;
  ALERT_COOLDOWN_SEC : Z;
  MAINTENANCE_MODE : bool
}.

(** The module's global variables. *)
Record State : Type := {
  last_seen_pool : option text;
  rolling_statuses : deque;
  last_alert_time : gmap string Z;
  last_release_by_pool : gmap text text
}.

(** The alert texts are f-strings; a message is represented by the values
    interpolated in it (the rate, printed with one decimal in the text, is
    kept as the float it is). *)
Inductive Message : Type :=
| FailoverMsg (from to release upstream : text) (time : string)
| ErrorRateMsg (rate : float) (window : Z) (current_pool : option text)
    (time : string).

(** The [print] calls of the module.  A [print] is taken to succeed: the
    standard output is assumed to encode the texts it is given. *)
Inductive Console : Type :=
| MaintenanceSuppressed (message : Message)
| NoWebhookSkipped (message : Message)
| PostedToSlack
| FailedToPost (e : string)
| FailoverInCooldown
| ErrorRateInCooldown
| ErrorHandlingLine (e : exn).

Inductive Output : Type :=
| Print (text : Console)
| HttpPost (url : string) (payload : Message).

(** How [requests.post(...)] followed by [resp.raise_for_status()] ends. *)
Inductive Transport : Type :=
| Delivered
| Failed (e : string).

(** What one call of [handle_line] may read from the outside world: for each
    of its two alerts, the value of [now_ts()], of
    [datetime.utcnow().isoformat()], and the outcome of the webhook request. *)
Record Env : Type := {
  now_failover : Z;
  utc_failover : string;
  post_failover : Transport;
  now_error_rate : Z;
  utc_error_rate : string;
  post_error_rate : Transport
}.

(** Module initialisation, lines 34-37. *)
Definition initial_state (d : deque) : State :=
  {| last_seen_pool := None;
     rolling_statuses := d;
     last_alert_time := <["failover" := 0]> (<["error_rate" := 0]> ∅);
     last_release_by_pool := ∅ |}.

Definition init_state (cfg : Config) : result State :=
  d ← deque_new (WINDOW_SIZE cfg);
  Ok (initial_state d).

(** [not SLACK_WEBHOOK_URL]: unset, or set to the empty string. *)
Definition no_webhook (url : option string) : bool :=
  match url with
  | None => true
  | Some EmptyString => true
  | Some _ => false
  end.

Definition post_slack (cfg : Config) (net : Transport) (message : Message)
  : bool * list Output :=
  if MAINTENANCE_MODE cfg then
    (false, [Print (MaintenanceSuppressed message)])
  else if no_webhook (SLACK_WEBHOOK_URL cfg) then
    (false, [Print (NoWebhookSkipped message)])
  else
    let url := default "" (SLACK_WEBHOOK_URL cfg) in
    match net with
    | Delivered => (true, [HttpPost url message; Print PostedToSlack])
    | Failed e => (false, [HttpPost url message; Print (FailedToPost e)])
    end.

Definition is_5xx (s : Z) : bool := (500 <=? s) && (s <? 600).

(** [sum(1 for s in rolling_statuses if 500 <= s < 600)] *)
Definition count_errors (d : deque) : Z :=
  fold_right (fun s acc => if is_5xx s then 1 + acc else acc) 0 (items d).

Definition check_error_rate (rolling_statuses : deque) : option float :=
  if len rolling_statuses <? 10 then None
  else
    let errors := count_errors rolling_statuses in
    let rate := float_mul (int_truediv errors (len rolling_statuses)) (float_of_int 100) in
    Some rate.

(** ** [handle_line], lines 88-137 *)

(** [# update rolling window] *)
Definition update_rolling_window (cfg : Config) (r : LogRecord) (st : State) : State :=
  if 0 <? WINDOW_SIZE cfg then
    {| last_seen_pool := last_seen_pool st;
       rolling_statuses := append (status r) (rolling_statuses st);
       last_alert_time := last_alert_time st;
       last_release_by_pool := last_release_by_pool st |}
  else st.

(** [# detect pool flip] *)
Definition detect_pool_flip (cfg : Config) (env : Env) (r : LogRecord) (st : State)
  : State * list Output :=
  match last_seen_pool st with
  | None =>
      ({| last_seen_pool := Some (pool r);
          rolling_statuses := rolling_statuses st;
          last_alert_time := last_alert_time st;
          last_release_by_pool := <[pool r := release r]> (last_release_by_pool st) |},
       [])
  | Some seen =>
      if decide (pool r ≠ seen) then
        let t := now_failover env in
        let cooldown := default 0 (last_alert_time st !! "failover") in
        let '(alert_time, out) :=
          if ALERT_COOLDOWN_SEC cfg <=? t - cooldown then
            let msg := FailoverMsg seen (pool r) (release r) (upstream_addr r)
                         (utc_failover env) in
            let '(posted, out) := post_slack cfg (post_failover env) msg in
            (if posted then <["failover" := t]> (last_alert_time st)
             else last_alert_time st, out)
          else (last_alert_time st, [Print FailoverInCooldown]) in
        ({| last_seen_pool := Some (pool r);
            rolling_statuses := rolling_statuses st;
            last_alert_time := alert_time;
            last_release_by_pool := <[pool r := release r]> (last_release_by_pool st) |},
         out)
      else (st, [])
  end.

(** [# check error rate] *)
Definition alert_error_rate (cfg : Config) (env : Env) (st : State)
  : State * list Output :=
  match check_error_rate (rolling_statuses st) with
  | Some rate =>
      if float_ge rate (ERROR_RATE_THRESHOLD cfg) then
        let t := now_error_rate env in
        if ALERT_COOLDOWN_SEC cfg <=? t - default 0 (last_alert_time st !! "error_rate") then
          let msg := ErrorRateMsg rate (len (rolling_statuses st)) (last_seen_pool st)
                       (utc_error_rate env) in
          let '(posted, out) := post_slack cfg (post_error_rate env) msg in
          ({| last_seen_pool := last_seen_pool st;
              rolling_statuses := rolling_statuses st;
              last_alert_time :=
                if posted then <["error_rate" := t]> (last_alert_time st)
                else last_alert_time st;
              last_release_by_pool := last_release_by_pool st |},
           out)
        else (st, [Print ErrorRateInCooldown])
      else (st, [])
  | None => (st, [])
  end.

(** The body of [handle_line] once the fields are extracted. *)
Definition process_record (cfg : Config) (env : Env) (r : LogRecord) (st : State)
  : State * list Output :=
  let st1 := update_rolling_window cfg r st in
  let '(st2, out_failover) := detect_pool_flip cfg env r st1 in
  let '(st3, out_error_rate) := alert_error_rate cfg env st2 in
  (st3, out_failover ++ out_error_rate).

Definition handle_line (cfg : Config) (env : Env) (line : text) (st : State)
  : result (State * list Output) :=
  r ← extract_fields line;
  Ok (process_record cfg env r st).

(** ** [main]: the loop over the followed lines

    An exception of [handle_line] is caught and reported, and the loop goes
    on.  (The one step of [handle_line] that is modelled as able to raise,
    the extraction, comes before any assignment to the globals, so the state
    at the handler is the state before the call.) *)
Definition main_step (cfg : Config) (env : Env) (line : text) (st : State)
  : State * list Output :=
  match handle_line cfg env line st with
  | Ok r => r
  | Raise e => (st, [Print (ErrorHandlingLine e)])
  end.

(** The outputs are kept per line, in the order of the lines. *)
Fixpoint main_loop (cfg : Config) (input : list (text * Env)) (st : State)
  : State * list (list Output) :=
  match input with
  | [] => (st, [])
  | (line, env) :: rest =>
      let '(st', out) := main_step cfg env line st in
      let '(st'', outs) := main_loop cfg rest st' in
      (st'', out :: outs)
  end.

(** The whole program on a finite prefix of the log: module initialisation,
    then the loop. *)
Definition run (cfg : Config) (input : list (text * Env))
  : result (State * list (list Output)) :=
  st ← init_state cfg;
  Ok (main_loop cfg input st).

(** ** Vocabulary of the properties *)

Definition is_http_post (o : Output) : bool :=
  match o with
  | HttpPost _ _ => true
  | Print _ => false
  end.

(** What the failover alert of lines 98-114 writes, for a flip from pool
    [from] seen on record [r], when the last failover alert was sent at
    [last]: past the cooldown the message goes to [post_slack], otherwise
    the cooldown line is printed. *)
Definition failover_alert (cfg : Config) (env : Env) (last : Z) (from : text)
    (r : LogRecord) : list Output :=
  if ALERT_COOLDOWN_SEC cfg <=? now_failover env - last then
    snd (post_slack cfg (post_failover env)
           (FailoverMsg from (pool r) (release r) (upstream_addr r) (utc_failover env)))
  else [Print FailoverInCooldown].

(** What the error-rate alert of lines 121-137 writes. *)
Definition error_rate_alert (cfg : Config) (env : Env) (last : Z) (rate : float)
    (window : Z) (current_pool : option text) : list Output :=
  if ALERT_COOLDOWN_SEC cfg <=? now_error_rate env - last then
    snd (post_slack cfg (post_error_rate env)
           (ErrorRateMsg rate window current_pool (utc_error_rate env)))
  else [Print ErrorRateInCooldown].

(** The states the program can be in: the initial one, and those the loop
    reaches from it. *)
Definition reachable (cfg : Config) (st : State) : Prop :=
  ∃ st0 input, init_state cfg = Ok st0 ∧ st = fst (main_loop cfg input st0).

(** The suppression gates in the order the code goes through them: the
    cooldown (in [handle_line]), then maintenance mode, then the missing
    webhook (both in [post_slack]), and at last the request. *)
Definition gates_in_order (cfg : Config) (past_cooldown : bool)
    (in_cooldown : Console) (net : Transport) (msg : Message) : list Output :=
  if negb past_cooldown then [Print in_cooldown]
  else if MAINTENANCE_MODE cfg then [Print (MaintenanceSuppressed msg)]
  else if no_webhook (SLACK_WEBHOOK_URL cfg) then [Print (NoWebhookSkipped msg)]
  else [HttpPost (default "" (SLACK_WEBHOOK_URL cfg)) msg;
        Print (match net with Delivered => PostedToSlack | Failed e => FailedToPost e end)].

(** The gates in the order maintenance mode, missing webhook, cooldown: were
    the first two checked before the cooldown, no run with maintenance mode
    on or without a webhook would ever print a cooldown line. *)
Definition gates_checked_before_cooldown : Prop :=
  ∀ cfg input st outs,
    MAINTENANCE_MODE cfg = true ∨ no_webhook (SLACK_WEBHOOK_URL cfg) = true →
    run cfg input = Ok (st, outs) →
    ∀ out, out ∈ outs →
      (Print FailoverInCooldown ∉ out) ∧ (Print ErrorRateInCooldown ∉ out).

(** A test for [occurs]. *)
Fixpoint contains (key s : text) : bool :=
  match strip_literal key s with
  | Some _ => true
  | None =>
      match s with
      | [] => false
      | _ :: s' => contains key s'
      end
  end.

(** How far a rounding location may lie above the truncated mantissa. *)
Definition loc_weight (l : location) : Z :=
  match l with
  | loc_Exact => 0
  | loc_Inexact _ => 1
  end.

(** Some bit has been shifted out. *)
Definition inexact (mrs : shr_record) : bool := shr_r mrs || shr_s mrs.

(** ** Configurations and states of the examples *)

(** The configuration when no environment variable is set. *)
Definition default_config : Config :=
  {| SLACK_WEBHOOK_URL := None;
     ERROR_RATE_THRESHOLD := float_of_int 2;
     WINDOW_SIZE := 200;
     ALERT_COOLDOWN_SEC := 300;
     MAINTENANCE_MODE := false |}.

(** The default configuration with a webhook. *)
Definition webhook_config : Config :=
  {| SLACK_WEBHOOK_URL := Some "https://hooks.example/T0";
     ERROR_RATE_THRESHOLD := float_of_int 2;
     WINDOW_SIZE := 200;
     ALERT_COOLDOWN_SEC := 300;
     MAINTENANCE_MODE := false |}.

(** With maintenance mode on and a cooldown of [cooldown] seconds. *)
Definition maintenance_config (cooldown : Z) : Config :=
  {| SLACK_WEBHOOK_URL := Some "https://hooks.example/T0";
     ERROR_RATE_THRESHOLD := float_of_int 2;
     WINDOW_SIZE := 200;
     ALERT_COOLDOWN_SEC := cooldown;
     MAINTENANCE_MODE := true |}.

(** Without a webhook and with a cooldown of [cooldown] seconds. *)
Definition no_webhook_config (cooldown : Z) : Config :=
  {| SLACK_WEBHOOK_URL := None;
     ERROR_RATE_THRESHOLD := float_of_int 2;
     WINDOW_SIZE := 200;
     ALERT_COOLDOWN_SEC := cooldown;
     MAINTENANCE_MODE := false |}.

(** The default configuration with a window of [n] statuses. *)
Definition window_config (n : Z) : Config :=
  {| SLACK_WEBHOOK_URL := None;
     ERROR_RATE_THRESHOLD := float_of_int 2;
     WINDOW_SIZE := n;
     ALERT_COOLDOWN_SEC := 300;
     MAINTENANCE_MODE := false |}.

(** The configuration of the scenario: a window of 20 statuses, a threshold
    of 2.0, a webhook. *)
Definition scenario_config : Config :=
  {| SLACK_WEBHOOK_URL := Some "https://hooks.example/T0";
     ERROR_RATE_THRESHOLD := float_of_int 2;
     WINDOW_SIZE := 20;
     ALERT_COOLDOWN_SEC := 300;
     MAINTENANCE_MODE := false |}.

(** An outside world in which both clocks read [t] and the webhook answers
    [net]. *)
Definition env_at (t : Z) (net : Transport) : Env :=
  {| now_failover := t; utc_failover := "2026-11-04T00:00:00";
     post_failover := net;
     now_error_rate := t; utc_error_rate := "2026-11-04T00:00:00";
     post_error_rate := net |}.

Definition empty_window (n : Z) : deque := {| items := []; maxlen := n |}.

(** A state in which pool [blue] is tracked, the window is empty, and the
    last alerts were sent at [last_failover] and [last_error_rate]. *)
Definition tracking_blue (last_failover last_error_rate : Z) : State :=
  {| last_seen_pool := Some (str "blue");
     rolling_statuses := empty_window 200;
     last_alert_time :=
       <["failover" := last_failover]> (<["error_rate" := last_error_rate]> ∅);
     last_release_by_pool := <[str "blue" := str "v1"]> ∅ |}.

(** ** Vocabulary of the further properties *)

Definition is_failover_post (o : Output) : bool :=
  match o with
  | HttpPost _ (FailoverMsg _ _ _ _ _) => true
  | _ => false
  end.

Definition is_error_rate_post (o : Output) : bool :=
  match o with
  | HttpPost _ (ErrorRateMsg _ _ _ _) => true
  | _ => false
  end.

(** The statuses of the lines of an input, in order. *)
Definition statuses (input : list (text * Env)) : list Z :=
  map (λ le, status (fields le.1)) input.

(** The message an output carries, if any. *)
Definition message_of (o : Output) : option Message :=
  match o with
  | Print (MaintenanceSuppressed m) => Some m
  | Print (NoWebhookSkipped m) => Some m
  | HttpPost _ m => Some m
  | Print _ => None
  end.

(** [x < y] on floats. *)
Definition float_lt (x y : float) : bool := SFltb x y.

(** An output of the error-rate alert that can be told from its text: the
    cooldown line, or a line or request that carries an error-rate message. *)
Definition is_error_rate_output (o : Output) : bool :=
  match o with
  | Print ErrorRateInCooldown => true
  | _ => match message_of o with
         | Some (ErrorRateMsg _ _ _ _) => true
         | _ => false
         end
  end.

(** [s] holds no white space. *)
Fixpoint no_space (s : text) : bool :=
  match s with
  | [] => true
  | c :: s' => negb (is_space c) && no_space s'
  end.

(** [rest] is empty or starts with white space: a token ends before it. *)
Definition ends_token (rest : text) : bool :=
  match rest with
  | [] => true
  | c :: _ => is_space c
  end.

(** Somewhere in [line], [key] is followed by a character that is not white
    space. *)
Definition has_value (key line : text) : Prop :=
  ∃ pre c rest, line = pre ++ key ++ c :: rest ∧ is_space c = false.

(** [v] is the token that follows the leftmost such [key]: not empty, free
    of white space, and running up to the next white space or the end of the
    line. *)
Definition value_after (key line v : text) : Prop :=
  ∃ pre rest,
    line = pre ++ key ++ v ++ rest
    ∧ v ≠ [] ∧ no_space v = true ∧ ends_token rest = true
    ∧ ∀ pre' c rest',
        line = pre' ++ key ++ c :: rest' → is_space c = false →
        (length pre ≤ length pre')%nat.

(** The value of a field: the token after its key, or its default when the
    key has no value in the line. *)
Definition field_is (key dflt line v : text) : Prop :=
  (has_value key line ∧ value_after key line v)
  ∨ (¬ has_value key line ∧ v = dflt).

(** [tok] is the leftmost run of three digits of [line] between white space. *)
Definition first_status_token (line tok : text) : Prop :=
  ∃ pre w a b c w' post,
    line = pre ++ w :: a :: b :: c :: w' :: post
    ∧ is_space w = true ∧ is_digit a = true ∧ is_digit b = true
    ∧ is_digit c = true ∧ is_space w' = true
    ∧ tok = [a; b; c]
    ∧ ∀ tok', ¬ status_token (pre ++ [w]) tok'.

(** ** The log file: [open_and_follow], [follow] and [main]

    The file at [LOG_PATH] is a sequence of decoded characters that only
    grows (what the server appends at once is made of whole characters) and
    that can be opened once it exists.  An open handle is represented by the
    characters between its position and the end of the file. *)

Definition line_feed : Z := 10.
Definition carriage_return : Z := 13.

(** [thefile.readline()] on a file opened in text mode with the default
    [newline]: the characters up to the first line end, which is a line
    feed, a carriage return, or a carriage return and the line feed after
    it, and which is handed over as one line feed; all the unread characters
    when no line end is there yet; and the empty string at the end of the
    file.  (A carriage return that is the last character written so far is
    taken as a line end of its own.)  Returns the line and what is left
    unread. *)
Fixpoint readline (unread : text) : text * text :=
  match unread with
  | [] => ([], [])
  | c :: s =>
      if c =? line_feed then ([line_feed], s)
      else if c =? carriage_return then
        ([line_feed],
         match s with
         | c' :: s' => if c' =? line_feed then s' else s
         | [] => []
         end)
      else let '(line, rest) := readline s in (c :: line, rest)
  end.

(** Where the program stands. *)
Inductive Proc : Type :=
| NotStarted                    (* before [main] *)
| WaitingForFile                (* in the loop of [open_and_follow] *)
| Opened (unread : text)        (* [open] has returned, [follow] not begun *)
| Following (unread : text).    (* in the loop of [follow] *)

Record World : Type := {
  log_file : option text;       (* the content at [LOG_PATH], if it exists *)
  proc : Proc;
  globals : State
}.

(** What happens, in turn: the server appends to the log (creating it when
    it does not exist), or the program runs up to its next call of
    [readline], [sleep] or [open]. *)
Inductive Action : Type :=
| Append (data : text)
| Run (env : Env).

(** What the program does besides the outputs of [handle_line]. *)
Inductive Event : Type :=
| Started                       (* print('Starting alert_watcher, ...') *)
| LogFileNotFound               (* print('Log file not found, ...') *)
| Sleep (milliseconds : Z)
| Handled (line : text) (out : list Output).

Definition append_data (data : text) (w : World) : World :=
  {| log_file := Some (default [] (log_file w) ++ data);
     proc := match proc w with
             | Opened unread => Opened (unread ++ data)
             | Following unread => Following (unread ++ data)
             | p => p
             end;
     globals := globals w |}.

Definition set_proc (p : Proc) (w : World) : World :=
  {| log_file := log_file w; proc := p; globals := globals w |}.

Definition run_step (cfg : Config) (env : Env) (w : World) : World * list Event :=
  match proc w with
  | NotStarted =>
      (* main: print; open_and_follow: try open *)
      match log_file w with
      | Some content => (set_proc (Opened content) w, [Started])
      | None => (set_proc WaitingForFile w, [Started; LogFileNotFound])
      end
  | WaitingForFile =>
      (* time.sleep(1); if os.path.exists(path): open *)
      match log_file w with
      | Some content => (set_proc (Opened content) w, [Sleep 1000])
      | None => (w, [Sleep 1000])
      end
  | Opened _ =>
      (* follow: thefile.seek(0, 2) *)
      (set_proc (Following []) w, [])
  | Following unread =>
      let '(line, rest) := readline unread in
      match line with
      | [] =>
          (* if not line: time.sleep(0.2); continue *)
          (w, [Sleep 200])
      | _ =>
          (* yield line; main: handle_line(line) under try/except *)
          let '(st', out) := main_step cfg env line (globals w) in
          ({| log_file := log_file w; proc := Following rest; globals := st' |},
           [Handled line out])
      end
  end.

Definition step (cfg : Config) (a : Action) (w : World) : World * list Event :=
  match a with
  | Append data => (append_data data w, [])
  | Run env => run_step cfg env w
  end.

Fixpoint exec (cfg : Config) (acts : list Action) (w : World) : World * list Event :=
  match acts with
  | [] => (w, [])
  | a :: acts' =>
      let '(w', evs) := step cfg a w in
      let '(w'', evs') := exec cfg acts' w' in
      (w'', evs ++ evs')
  end.

(** The lines handed to [handle_line], in order. *)
Fixpoint handled_lines (evs : list Event) : list text :=
  match evs with
  | [] => []
  | Handled line _ :: evs' => line :: handled_lines evs'
  | _ :: evs' => handled_lines evs'
  end.

(** The outputs of [handle_line], line by line. *)
Fixpoint handled_outputs (evs : list Event) : list (list Output) :=
  match evs with
  | [] => []
  | Handled _ out :: evs' => out :: handled_outputs evs'
  | _ :: evs' => handled_outputs evs'
  end.

(** All the data appended, in order. *)
Fixpoint appended (acts : list Action) : text :=
  match acts with
  | [] => []
  | Append data :: acts' => data ++ appended acts'
  | Run _ :: acts' => appended acts'
  end.

Fixpoint concat_lines (lines : list text) : text :=
  match lines with
  | [] => []
  | l :: ls => l ++ concat_lines ls
  end.

Fixpoint no_char (x : Z) (s : text) : bool :=
  match s with
  | [] => true
  | c :: s' => negb (c =? x) && no_char x s'
  end.

(** No data of [acts] holds a carriage return. *)
Definition cr_free (acts : list Action) : Prop :=
  no_char carriage_return (appended acts) = true.

(** A non-empty piece of text with no line feed, except maybe as its last
    character: what [readline] can return. *)
Definition line_or_fragment (l : text) : Prop :=
  l ≠ []
  ∧ ∃ body, no_char line_feed body = true
      ∧ (l = body ∨ l = body ++ [line_feed]).

(** A whole line: text without line feed or carriage return, then a line
    feed. *)
Definition whole_line (l : text) : Prop :=
  ∃ body, no_char line_feed body = true ∧ no_char carriage_return body = true
    ∧ l = body ++ [line_feed].

(** The server writes whole lines, several at a time. *)
Inductive Burst : Type :=
| Lines (ls : list text)
| Poll (env : Env).

Definition burst_action (b : Burst) : Action :=
  match b with
  | Lines ls => Append (concat_lines ls)
  | Poll env => Run env
  end.

Fixpoint burst_lines (bs : list Burst) : list text :=
  match bs with
  | [] => []
  | Lines ls :: bs' => ls ++ burst_lines bs'
  | Poll _ :: bs' => burst_lines bs'
  end.

(** ** The maintenance flag, line 23 *)

(** [str.lower()] on a character with a code point below 256: the ASCII
    capitals and the Latin-1 capitals (192 to 222, but for the multiplication
    sign 215) move up by 32. *)
Definition lower_char (c : ascii) : ascii :=
  let n := N_of_ascii c in
  if ((65 <=? n)%N && (n <=? 90)%N)
     || ((192 <=? n)%N && (n <=? 222)%N && negb (n =? 215)%N)
  then ascii_of_N (n + 32)
  else c.

Fixpoint lower (s : string) : string :=
  match s with
  | EmptyString => EmptyString
  | String c s' => String (lower_char c) (lower s')
  end.

(** [os.getenv('MAINTENANCE_MODE', 'false').lower() in ('true', 'yes', '1')],
    where [value] is the variable's value, [None] when it is not set. *)
Definition maintenance_mode_of (value : option string) : bool :=
  let v := lower (default "false" value) in
  String.eqb v "true" || String.eqb v "yes" || String.eqb v "1".

(** The spellings that turn maintenance mode on. *)
Definition maintenance_spellings : list string :=
  ["true"; "truE"; "trUe"; "trUE"; "tRue"; "tRuE"; "tRUe"; "tRUE";
   "True"; "TruE"; "TrUe"; "TrUE"; "TRue"; "TRuE"; "TRUe"; "TRUE";
   "yes"; "yeS"; "yEs"; "yES"; "Yes"; "YeS"; "YEs"; "YES";
   "1"].

(** * Properties *)

(** ** The character classes *)

Lemma decimal_Some c v : decimal c = Some v → 0 ≤ v ≤ 9.
Proof.
  unfold decimal.
  destruct (find _ decimal_zeros) as [z|] eqn:E; [|done].
  apply find_some in E as [_ E]. intros [= <-]. lia.
Qed.

Lemma digit_value_range c : is_digit c = true → 0 ≤ digit_value c ≤ 9.
Proof.
  unfold is_digit, digit_value.
  destruct (decimal c) as [v|] eqn:E; [|done]. intros _.
  by apply decimal_Some in E.
Qed.

(** The code points of the white-space class. *)
Lemma is_space_inv c :
  is_space c = true →
  c ∈ [9; 10; 11; 12; 13; 28; 29; 30; 31; 32; 133; 160; 5760;
       8192; 8193; 8194; 8195; 8196; 8197; 8198; 8199; 8200; 8201; 8202;
       8232; 8233; 8239; 8287; 12288].
Proof.
  unfold is_space. intros H.
  assert (c = 9 ∨ c = 10 ∨ c = 11 ∨ c = 12 ∨ c = 13 ∨ c = 28 ∨ c = 29 ∨ c = 30
          ∨ c = 31 ∨ c = 32 ∨ c = 133 ∨ c = 160 ∨ c = 5760 ∨ c = 8192 ∨ c = 8193
          ∨ c = 8194 ∨ c = 8195 ∨ c = 8196 ∨ c = 8197 ∨ c = 8198 ∨ c = 8199
          ∨ c = 8200 ∨ c = 8201 ∨ c = 8202 ∨ c = 8232 ∨ c = 8233 ∨ c = 8239
          ∨ c = 8287 ∨ c = 12288) as Hc.
  { repeat (apply orb_true_iff in H as [H|H]);
      repeat (apply andb_true_iff in H as [? H]); lia. }
  rewrite !elem_of_cons. tauto.
Qed.

(** No white-space character is a decimal digit. *)
Lemma space_not_digit c : is_space c = true → is_digit c = false.
Proof.
  intros H. apply is_space_inv in H.
  repeat (apply elem_of_cons in H as [->|H]; [reflexivity|]).
  by apply elem_of_nil in H.
Qed.

(** ** The patterns and the extraction *)

Lemma text_app_nil (s : text) : [] ++ s = s.
Proof. reflexivity. Qed.

Lemma text_app_cons (c : Z) (s t : text) : (c :: s) ++ t = c :: (s ++ t).
Proof. reflexivity. Qed.

Lemma strip_literal_Some p s rest :
  strip_literal p s = Some rest → s = p ++ rest.
Proof.
  revert s. induction p as [|a p IH]; intros s H; simpl in *.
  - by injection H as ->.
  - destruct s as [|b s]; [discriminate|].
    destruct (Z.eqb_spec a b) as [->|]; [|discriminate].
    f_equal. auto.
Qed.

Lemma search_kv_occurs key line v :
  search_kv key line = Some v → occurs key line.
Proof.
  induction line as [|c line IH]; simpl; unfold match_kv_here.
  - destruct (strip_literal key []) as [rest|] eqn:E; [|discriminate].
    intros _. exists [], rest. exact (strip_literal_Some _ _ _ E).
  - destruct (strip_literal key (c :: line)) as [rest|] eqn:E.
    + intros _. exists [], rest. exact (strip_literal_Some _ _ _ E).
    + intros H. destruct (IH H) as (pre & post & ->).
      by exists (c :: pre), post.
Qed.

Lemma search_kv_absent key line :
  ¬ occurs key line → search_kv key line = None.
Proof.
  intros H. destruct (search_kv key line) eqn:E; [|done].
  exfalso. eauto using search_kv_occurs.
Qed.

Lemma match_status_here_Some s tok :
  match_status_here s = Some tok → status_token s tok.
Proof.
  destruct s as [|w [|a [|b [|c [|w' post]]]]]; simpl; try discriminate.
  destruct (is_space w) eqn:?, (is_digit a) eqn:?, (is_digit b) eqn:?,
    (is_digit c) eqn:?, (is_space w') eqn:?; simpl; try discriminate.
  intros [= <-]. by exists [], w, a, b, c, w', post.
Qed.

Lemma search_status_cons c s :
  search_status (c :: s) =
  match match_status_here (c :: s) with
  | Some v => Some v
  | None => search_status s
  end.
Proof. reflexivity. Qed.

Lemma search_status_token line tok :
  search_status line = Some tok → status_token line tok.
Proof.
  induction line as [|ch line IH].
  - discriminate.
  - rewrite search_status_cons.
    destruct (match_status_here (ch :: line)) as [t|] eqn:E.
    + intros [= ->]. by apply match_status_here_Some.
    + intros H. destruct (IH H) as (pre & w & a & b & c & w' & post & -> & ?).
      by exists (ch :: pre), w, a, b, c, w', post.
Qed.

Lemma search_status_absent line :
  (∀ tok, ¬ status_token line tok) → search_status line = None.
Proof.
  intros H. destruct (search_status line) eqn:E; [|done].
  exfalso. eapply H, search_status_token, E.
Qed.

Lemma py_int_token line tok :
  search_status line = Some tok → py_int tok = Ok (status_of_token tok).
Proof.
  intros H. apply search_status_token in H
    as (pre & w & a & b & c & w' & post & _ & _ & Ha & Hb & Hc & _ & ->).
  simpl. rewrite Ha; simpl. rewrite Hb; simpl. rewrite Hc; simpl.
  f_equal. lia.
Qed.

(** The extraction never takes an exceptional path. *)
Lemma extract_fields_Ok line : extract_fields line = Ok (fields line).
Proof.
  unfold extract_fields, fields, RE_STATUS.
  destruct (RE_POOL line), (RE_RELEASE line), (RE_UPSTREAM_STATUS line),
    (RE_UPSTREAM_ADDR line); simpl;
    (destruct (search_status line) as [tok|] eqn:E; simpl;
     [rewrite (py_int_token _ _ E); simpl|]; reflexivity).
Qed.

Lemma search_status_None_head s :
  search_status s = None → match_status_here s = None.
Proof.
  destruct s as [|c s]; [done|]. rewrite search_status_cons.
  by destruct (match_status_here (c :: s)).
Qed.

Lemma search_status_None_tail c s :
  search_status (c :: s) = None → search_status s = None.
Proof.
  rewrite search_status_cons. by destruct (match_status_here (c :: s)).
Qed.

(** The leftmost token is the one the pattern finds: nothing that starts
    before the white space in front of it can match. *)
Lemma search_status_first pre w a b c w' post :
  search_status (pre ++ [w]) = None →
  is_space w = true → is_digit a = true → is_digit b = true →
  is_digit c = true → is_space w' = true →
  search_status (pre ++ w :: a :: b :: c :: w' :: post) = Some [a; b; c].
Proof.
  intros Hpre Hw Ha Hb Hc Hw'.
  pose proof (space_not_digit _ Hw) as Hwd.
  induction pre as [|ch pre IH].
  - rewrite text_app_nil, search_status_cons.
    unfold match_status_here. by rewrite Hw, Ha, Hb, Hc, Hw'.
  - rewrite text_app_cons in Hpre |- *.
    rewrite search_status_cons.
    pose proof (search_status_None_head _ Hpre) as Hh.
    rewrite (IH (search_status_None_tail _ _ Hpre)).
    destruct pre as [|p1 [|p2 [|p3 [|p4 pre]]]];
      rewrite ?text_app_cons, ?text_app_nil in Hh |- *;
      unfold match_status_here in Hh |- *;
      rewrite ?Hwd, ?andb_false_r; try done.
    + by rewrite Hh.
    + by rewrite Hh.
Qed.

(** C8. Field extraction never raises: for every line, a sequence of
    Unicode code points whatever they are, it returns a record, and each
    field whose pattern finds nothing takes its default: ["unknown"] for the
    pool and the release when [pool=] / [release=] do not occur, 0 for the
    status when the line has no three-digit token between white space, the
    empty string for the upstream fields; and when the leftmost such token
    is [599] the status is 599, which counts as a 5xx error. *)
Theorem extract_fields_total_defaults (line : text) :
  ∃ r, extract_fields line = Ok r
    ∧ (¬ occurs (str "pool=") line → pool r = str "unknown")
    ∧ (¬ occurs (str "release=") line → release r = str "unknown")
    ∧ ((∀ tok, ¬ status_token line tok) → status r = 0)
    ∧ (¬ occurs (str "upstream_status=") line → upstream_status r = str "")
    ∧ (¬ occurs (str "upstream_addr=") line → upstream_addr r = str "")
    ∧ (∀ pre w w' post,
         line = pre ++ w :: str "599" ++ w' :: post →
         is_space w = true → is_space w' = true →
         (∀ tok, ¬ status_token (pre ++ [w]) tok) →
         status r = 599 ∧ is_5xx (status r) = true).
Proof.
  exists (fields line). split; [apply extract_fields_Ok|].
  unfold fields, RE_POOL, RE_RELEASE, RE_STATUS, RE_UPSTREAM_STATUS,
    RE_UPSTREAM_ADDR; cbn [pool release status upstream_status upstream_addr].
  split_and!.
  - intros H. by rewrite (search_kv_absent _ _ H).
  - intros H. by rewrite (search_kv_absent _ _ H).
  - intros H. by rewrite (search_status_absent _ H).
  - intros H. by rewrite (search_kv_absent _ _ H).
  - intros H. by rewrite (search_kv_absent _ _ H).
  - intros pre w w' post -> Hw Hw' Hpre.
    change (str "599" ++ w' :: post) with (53 :: 57 :: 57 :: w' :: post).
    rewrite (search_status_first pre w 53 57 57 w' post);
      auto using search_status_absent.
Qed.

Lemma strip_literal_app key post : strip_literal key (key ++ post) = Some post.
Proof.
  induction key as [|a key IH]; [done|].
  rewrite text_app_cons. simpl. by rewrite Z.eqb_refl.
Qed.

Lemma contains_eq key s :
  contains key s =
  match strip_literal key s with
  | Some _ => true
  | None => match s with
            | [] => false
            | _ :: s' => contains key s'
            end
  end.
Proof. by destruct s. Qed.

Lemma occurs_contains key line : occurs key line → contains key line = true.
Proof.
  intros (pre & post & ->). induction pre as [|c pre IH].
  - by rewrite text_app_nil, contains_eq, strip_literal_app.
  - rewrite text_app_cons, contains_eq, IH. by destruct (strip_literal _ _).
Qed.

Lemma status_token_found line tok : status_token line tok → search_status line ≠ None.
Proof.
  intros (pre & w & a & b & c & w' & post & -> & Hw & Ha & Hb & Hc & Hw' & _).
  induction pre as [|ch pre IH].
  - rewrite text_app_nil, search_status_cons.
    unfold match_status_here. by rewrite Hw, Ha, Hb, Hc, Hw'.
  - rewrite text_app_cons, search_status_cons.
    by destruct (match_status_here _).
Qed.

(** A line of Latin and Arabic-Indic text, with an EM SPACE (8195) before
    the status and a tabulation after it. *)
Lemma extract_fields_total_defaults_witness :
  ∃ r, extract_fields (str "GET /caf" ++ [233; 32; 1602; 8195] ++ str "599" ++ [9]
                         ++ str "upstream_status=599 ") = Ok r
    ∧ pool r = str "unknown" ∧ release r = str "unknown" ∧ status r = 599
    ∧ is_5xx (status r) = true ∧ upstream_addr r = str "".
Proof.
  destruct (extract_fields_total_defaults
              (str "GET /caf" ++ [233; 32; 1602; 8195] ++ str "599" ++ [9]
                 ++ str "upstream_status=599 "))
    as (r & Hr & Hp & Hrel & _ & _ & Ha & Hs).
  exists r. split; [exact Hr|].
  assert (∀ key, contains key (str "GET /caf" ++ [233; 32; 1602; 8195] ++ str "599" ++ [9]
                                 ++ str "upstream_status=599 ") = false →
                 ¬ occurs key (str "GET /caf" ++ [233; 32; 1602; 8195] ++ str "599" ++ [9]
                                 ++ str "upstream_status=599 ")) as Hno.
  { intros key Hc Ho. apply occurs_contains in Ho. congruence. }
  destruct (Hs (str "GET /caf" ++ [233; 32; 1602]) 8195 9 (str "upstream_status=599 "))
    as [Hs1 Hs2]; [reflexivity..| |].
  { intros tok Ht. by apply (status_token_found _ _ Ht). }
  split; [apply Hp, Hno; reflexivity|].
  split; [apply Hrel, Hno; reflexivity|].
  split; [exact Hs1|]. split; [exact Hs2|].
  apply Ha, Hno. reflexivity.
Defined.

(** ** [handle_line] and its three steps *)

Lemma handle_line_Ok cfg env line st :
  handle_line cfg env line st = Ok (process_record cfg env (fields line) st).
Proof. unfold handle_line. by rewrite extract_fields_Ok. Qed.

Lemma main_step_eq cfg env line st :
  main_step cfg env line st = process_record cfg env (fields line) st.
Proof. unfold main_step. by rewrite handle_line_Ok. Qed.

Lemma main_loop_cons cfg line env rest st :
  main_loop cfg ((line, env) :: rest) st =
  (fst (main_loop cfg rest (fst (process_record cfg env (fields line) st))),
   snd (process_record cfg env (fields line) st)
   :: snd (main_loop cfg rest (fst (process_record cfg env (fields line) st)))).
Proof.
  simpl. rewrite main_step_eq.
  destruct (process_record cfg env (fields line) st) as [st' out]; simpl.
  by destruct (main_loop cfg rest st').
Qed.

Lemma main_loop_app cfg input1 input2 st :
  main_loop cfg (input1 ++ input2) st =
  (fst (main_loop cfg input2 (fst (main_loop cfg input1 st))),
   snd (main_loop cfg input1 st)
   ++ snd (main_loop cfg input2 (fst (main_loop cfg input1 st)))).
Proof.
  revert st. induction input1 as [|[line env] input1 IH]; intros st.
  - simpl. by destruct (main_loop cfg input2 st).
  - rewrite <- app_comm_cons, !main_loop_cons, IH. reflexivity.
Qed.

Lemma post_slack_maintenance cfg net m :
  MAINTENANCE_MODE cfg = true →
  post_slack cfg net m = (false, [Print (MaintenanceSuppressed m)]).
Proof. unfold post_slack. by intros ->. Qed.

Lemma post_slack_no_webhook cfg net m :
  MAINTENANCE_MODE cfg = false → no_webhook (SLACK_WEBHOOK_URL cfg) = true →
  post_slack cfg net m = (false, [Print (NoWebhookSkipped m)]).
Proof. unfold post_slack. by intros -> ->. Qed.

Lemma post_slack_transport cfg net m :
  MAINTENANCE_MODE cfg = false → no_webhook (SLACK_WEBHOOK_URL cfg) = false →
  post_slack cfg net m =
  match net with
  | Delivered => (true, [HttpPost (default "" (SLACK_WEBHOOK_URL cfg)) m; Print PostedToSlack])
  | Failed e => (false, [HttpPost (default "" (SLACK_WEBHOOK_URL cfg)) m; Print (FailedToPost e)])
  end.
Proof. unfold post_slack. by intros -> ->. Qed.

(** The failover step, case by case. *)
Lemma detect_pool_flip_first cfg env r st :
  last_seen_pool st = None →
  detect_pool_flip cfg env r st =
  ({| last_seen_pool := Some (pool r);
      rolling_statuses := rolling_statuses st;
      last_alert_time := last_alert_time st;
      last_release_by_pool := <[pool r := release r]> (last_release_by_pool st) |}, []).
Proof. unfold detect_pool_flip. by intros ->. Qed.

Lemma detect_pool_flip_same cfg env r st :
  last_seen_pool st = Some (pool r) → detect_pool_flip cfg env r st = (st, []).
Proof. unfold detect_pool_flip. intros ->. by rewrite decide_False by auto. Qed.

Lemma detect_pool_flip_change cfg env r st seen :
  last_seen_pool st = Some seen → pool r ≠ seen →
  detect_pool_flip cfg env r st =
  ({| last_seen_pool := Some (pool r);
      rolling_statuses := rolling_statuses st;
      last_alert_time :=
        if (ALERT_COOLDOWN_SEC cfg <=? now_failover env - default 0 (last_alert_time st !! "failover"))
           && fst (post_slack cfg (post_failover env)
                     (FailoverMsg seen (pool r) (release r) (upstream_addr r) (utc_failover env)))
        then <["failover" := now_failover env]> (last_alert_time st)
        else last_alert_time st;
      last_release_by_pool := <[pool r := release r]> (last_release_by_pool st) |},
   failover_alert cfg env (default 0 (last_alert_time st !! "failover")) seen r).
Proof.
  unfold detect_pool_flip, failover_alert. intros -> Hne.
  rewrite decide_True by done.
  destruct (_ <=? _); simpl; [|done].
  by destruct (post_slack _ _ _) as [[] out].
Qed.

Lemma detect_pool_flip_window cfg env r st :
  rolling_statuses (fst (detect_pool_flip cfg env r st)) = rolling_statuses st.
Proof.
  destruct (last_seen_pool st) as [seen|] eqn:E.
  - destruct (decide (pool r = seen)) as [<-|Hne].
    + by rewrite detect_pool_flip_same.
    + by rewrite (detect_pool_flip_change _ _ _ _ _ E Hne).
  - by rewrite detect_pool_flip_first.
Qed.

Lemma detect_pool_flip_tracks cfg env r st :
  last_seen_pool (fst (detect_pool_flip cfg env r st)) = Some (pool r).
Proof.
  destruct (last_seen_pool st) as [seen|] eqn:E.
  - destruct (decide (pool r = seen)) as [<-|Hne].
    + by rewrite detect_pool_flip_same.
    + by rewrite (detect_pool_flip_change _ _ _ _ _ E Hne).
  - by rewrite detect_pool_flip_first.
Qed.

Lemma detect_pool_flip_error_rate_time cfg env r st :
  last_alert_time (fst (detect_pool_flip cfg env r st)) !! "error_rate"
  = last_alert_time st !! "error_rate".
Proof.
  destruct (last_seen_pool st) as [seen|] eqn:E.
  - destruct (decide (pool r = seen)) as [<-|Hne].
    + by rewrite detect_pool_flip_same.
    + rewrite (detect_pool_flip_change _ _ _ _ _ E Hne); simpl.
      destruct (_ && _); [|done]. by rewrite lookup_insert_ne.
  - by rewrite detect_pool_flip_first.
Qed.

(** The error-rate step, case by case. *)
Lemma alert_error_rate_quiet cfg env st :
  (∀ rate, check_error_rate (rolling_statuses st) = Some rate →
           float_ge rate (ERROR_RATE_THRESHOLD cfg) = false) →
  alert_error_rate cfg env st = (st, []).
Proof.
  unfold alert_error_rate. intros H.
  destruct (check_error_rate _) as [rate|]; [|done].
  by rewrite (H rate).
Qed.

Lemma alert_error_rate_fires cfg env st rate :
  check_error_rate (rolling_statuses st) = Some rate →
  float_ge rate (ERROR_RATE_THRESHOLD cfg) = true →
  alert_error_rate cfg env st =
  ({| last_seen_pool := last_seen_pool st;
      rolling_statuses := rolling_statuses st;
      last_alert_time :=
        if (ALERT_COOLDOWN_SEC cfg <=? now_error_rate env - default 0 (last_alert_time st !! "error_rate"))
           && fst (post_slack cfg (post_error_rate env)
                     (ErrorRateMsg rate (len (rolling_statuses st)) (last_seen_pool st)
                        (utc_error_rate env)))
        then <["error_rate" := now_error_rate env]> (last_alert_time st)
        else last_alert_time st;
      last_release_by_pool := last_release_by_pool st |},
   error_rate_alert cfg env (default 0 (last_alert_time st !! "error_rate")) rate
     (len (rolling_statuses st)) (last_seen_pool st)).
Proof.
  unfold alert_error_rate, error_rate_alert. intros -> ->.
  destruct (_ <=? _); simpl.
  - by destruct (post_slack _ _ _) as [[] out].
  - by destruct st.
Qed.

Lemma alert_error_rate_cases cfg env st :
  alert_error_rate cfg env st = (st, [])
  ∨ ∃ rate, check_error_rate (rolling_statuses st) = Some rate
      ∧ float_ge rate (ERROR_RATE_THRESHOLD cfg) = true.
Proof.
  destruct (check_error_rate (rolling_statuses st)) as [rate|] eqn:E.
  - destruct (float_ge rate (ERROR_RATE_THRESHOLD cfg)) eqn:G; [by eauto|].
    left. apply alert_error_rate_quiet. intros r0 Hr. congruence.
  - left. apply alert_error_rate_quiet. intros r0 Hr. congruence.
Qed.

Lemma alert_error_rate_keeps cfg env st :
  let st' := fst (alert_error_rate cfg env st) in
  last_seen_pool st' = last_seen_pool st
  ∧ rolling_statuses st' = rolling_statuses st
  ∧ last_release_by_pool st' = last_release_by_pool st
  ∧ last_alert_time st' !! "failover" = last_alert_time st !! "failover".
Proof.
  destruct (alert_error_rate_cases cfg env st) as [->|(rate & E & G)]; [done|].
  rewrite (alert_error_rate_fires _ _ _ _ E G); simpl.
  split_and!; try done.
  destruct (_ && _); [|done]. by rewrite lookup_insert_ne.
Qed.

Lemma process_record_eq cfg env r st :
  process_record cfg env r st =
  let st1 := update_rolling_window cfg r st in
  let st2 := fst (detect_pool_flip cfg env r st1) in
  (fst (alert_error_rate cfg env st2),
   snd (detect_pool_flip cfg env r st1) ++ snd (alert_error_rate cfg env st2)).
Proof.
  unfold process_record.
  destruct (detect_pool_flip _ _ _ _) as [st2 o1]; simpl.
  by destruct (alert_error_rate _ _ _) as [st3 o2].
Qed.

Lemma update_rolling_window_keeps cfg r st :
  let st' := update_rolling_window cfg r st in
  last_seen_pool st' = last_seen_pool st
  ∧ last_alert_time st' = last_alert_time st
  ∧ last_release_by_pool st' = last_release_by_pool st.
Proof. unfold update_rolling_window. by destruct (0 <? _). Qed.

Lemma process_record_tracks cfg env r st :
  last_seen_pool (fst (process_record cfg env r st)) = Some (pool r).
Proof.
  rewrite process_record_eq; simpl.
  destruct (alert_error_rate_keeps cfg env
    (fst (detect_pool_flip cfg env r (update_rolling_window cfg r st)))) as (-> & _).
  apply detect_pool_flip_tracks.
Qed.

Lemma process_record_window cfg env r st :
  rolling_statuses (fst (process_record cfg env r st))
  = rolling_statuses (update_rolling_window cfg r st).
Proof.
  rewrite process_record_eq; simpl.
  destruct (alert_error_rate_keeps cfg env
    (fst (detect_pool_flip cfg env r (update_rolling_window cfg r st)))) as (_ & -> & _).
  apply detect_pool_flip_window.
Qed.

(** ** Maintenance mode *)

Lemma failover_alert_maintenance cfg env last from r :
  MAINTENANCE_MODE cfg = true →
  Forall (λ o, is_http_post o = false) (failover_alert cfg env last from r).
Proof.
  intros H. unfold failover_alert. rewrite post_slack_maintenance by done.
  destruct (_ <=? _); repeat constructor.
Qed.

Lemma error_rate_alert_maintenance cfg env last rate w p :
  MAINTENANCE_MODE cfg = true →
  Forall (λ o, is_http_post o = false) (error_rate_alert cfg env last rate w p).
Proof.
  intros H. unfold error_rate_alert. rewrite post_slack_maintenance by done.
  destruct (_ <=? _); repeat constructor.
Qed.

Lemma detect_pool_flip_outputs cfg env r st :
  snd (detect_pool_flip cfg env r st) = []
  ∨ ∃ seen, last_seen_pool st = Some seen ∧ pool r ≠ seen
      ∧ snd (detect_pool_flip cfg env r st)
        = failover_alert cfg env (default 0 (last_alert_time st !! "failover")) seen r.
Proof.
  destruct (last_seen_pool st) as [seen|] eqn:E.
  - destruct (decide (pool r = seen)) as [<-|Hne].
    + left. by rewrite detect_pool_flip_same.
    + right. exists seen. by rewrite (detect_pool_flip_change _ _ _ _ _ E Hne).
  - left. by rewrite detect_pool_flip_first.
Qed.

Lemma alert_error_rate_outputs cfg env st :
  snd (alert_error_rate cfg env st) = []
  ∨ ∃ rate, check_error_rate (rolling_statuses st) = Some rate
      ∧ float_ge rate (ERROR_RATE_THRESHOLD cfg) = true
      ∧ snd (alert_error_rate cfg env st)
        = error_rate_alert cfg env (default 0 (last_alert_time st !! "error_rate")) rate
            (len (rolling_statuses st)) (last_seen_pool st).
Proof.
  destruct (alert_error_rate_cases cfg env st) as [->|(rate & E & G)]; [by left|].
  right. exists rate. by rewrite (alert_error_rate_fires _ _ _ _ E G).
Qed.

Lemma process_record_maintenance cfg env r st :
  MAINTENANCE_MODE cfg = true →
  Forall (λ o, is_http_post o = false) (snd (process_record cfg env r st)).
Proof.
  intros H. rewrite process_record_eq; simpl. apply Forall_app. split.
  - destruct (detect_pool_flip_outputs cfg env r (update_rolling_window cfg r st))
      as [->|(seen & _ & _ & ->)]; [constructor|].
    by apply failover_alert_maintenance.
  - destruct (alert_error_rate_outputs cfg env
      (fst (detect_pool_flip cfg env r (update_rolling_window cfg r st))))
      as [->|(rate & _ & _ & ->)]; [constructor|].
    by apply error_rate_alert_maintenance.
Qed.

(** C7. With maintenance mode on, whatever the lines, the clock, the webhook
    configuration and the state the loop starts from (cooldown elapsed or
    not), no line of the log makes the program issue a webhook request. *)
Theorem maintenance_mode_never_posts cfg input st :
  MAINTENANCE_MODE cfg = true →
  Forall (Forall (λ o, is_http_post o = false)) (snd (main_loop cfg input st)).
Proof.
  intros H. revert st. induction input as [|[line env] input IH]; intros st.
  - constructor.
  - rewrite main_loop_cons; simpl. constructor; [|apply IH].
    by apply process_record_maintenance.
Qed.

Lemma maintenance_mode_never_posts_witness :
  Forall (Forall (λ o, is_http_post o = false))
    (snd (main_loop (maintenance_config 300)
       [(str "GET / 200 pool=blue release=v1 ", env_at 1762214400 Delivered);
        (str "GET / 200 pool=green release=v1 ", env_at 1762214401 Delivered)]
       (initial_state (empty_window 200)))).
Proof. apply maintenance_mode_never_posts. reflexivity. Defined.

(** ** The suppression gates *)

Lemma failover_alert_gates cfg env last from r :
  failover_alert cfg env last from r =
  gates_in_order cfg (ALERT_COOLDOWN_SEC cfg <=? now_failover env - last)
    FailoverInCooldown (post_failover env)
    (FailoverMsg from (pool r) (release r) (upstream_addr r) (utc_failover env)).
Proof.
  unfold failover_alert, gates_in_order, post_slack.
  destruct (_ <=? _); simpl; [|done].
  destruct (MAINTENANCE_MODE cfg); [done|].
  destruct (no_webhook _); [done|]. by destruct (post_failover env).
Qed.

Lemma error_rate_alert_gates cfg env last rate w p :
  error_rate_alert cfg env last rate w p =
  gates_in_order cfg (ALERT_COOLDOWN_SEC cfg <=? now_error_rate env - last)
    ErrorRateInCooldown (post_error_rate env)
    (ErrorRateMsg rate w p (utc_error_rate env)).
Proof.
  unfold error_rate_alert, gates_in_order, post_slack.
  destruct (_ <=? _); simpl; [|done].
  destruct (MAINTENANCE_MODE cfg); [done|].
  destruct (no_webhook _); [done|]. by destruct (post_error_rate env).
Qed.

(** What a line writes when it shows a change of pool. *)
Lemma process_record_flip cfg env r st seen :
  last_seen_pool st = Some seen → pool r ≠ seen →
  ∃ rest, snd (process_record cfg env r st) =
    failover_alert cfg env (default 0 (last_alert_time st !! "failover")) seen r ++ rest.
Proof.
  intros E Hne. rewrite process_record_eq; simpl.
  destruct (update_rolling_window_keeps cfg r st) as (Hp & Ht & _).
  rewrite (detect_pool_flip_change cfg env r (update_rolling_window cfg r st) seen)
    by (by rewrite ?Hp); simpl.
  rewrite Ht. eauto.
Qed.

(** What a line writes when, once its status is pushed, the error rate
    reaches the threshold. *)
Lemma process_record_high_rate cfg env r st rate :
  check_error_rate (rolling_statuses (update_rolling_window cfg r st)) = Some rate →
  float_ge rate (ERROR_RATE_THRESHOLD cfg) = true →
  ∃ front, snd (process_record cfg env r st) =
    front ++ error_rate_alert cfg env (default 0 (last_alert_time st !! "error_rate")) rate
               (len (rolling_statuses (update_rolling_window cfg r st))) (Some (pool r)).
Proof.
  intros E G. rewrite process_record_eq; simpl.
  set (st1 := update_rolling_window cfg r st) in *.
  set (st2 := fst (detect_pool_flip cfg env r st1)).
  assert (rolling_statuses st2 = rolling_statuses st1) as Hw
    by apply detect_pool_flip_window.
  rewrite (alert_error_rate_fires cfg env st2 rate) by (by rewrite ?Hw); simpl.
  rewrite Hw. unfold st2 at 1 2.
  rewrite detect_pool_flip_error_rate_time, detect_pool_flip_tracks.
  subst st1.
  destruct (update_rolling_window_keeps cfg r st) as (_ & -> & _). eauto.
Qed.

(** C1, as the code has it.  For every alert, of either kind, the gates are
    gone through in the order cooldown, maintenance mode, missing webhook:
    inside the cooldown the line printed is the cooldown one, whatever the
    maintenance flag and the webhook are; past the cooldown, maintenance mode
    suppresses the alert before the webhook is looked at; and the request is
    made only when the three gates let it through. *)
Theorem gates_cooldown_then_maintenance_then_webhook cfg env r st :
  (∀ seen, last_seen_pool st = Some seen → pool r ≠ seen →
     ∃ rest, snd (process_record cfg env r st) =
       gates_in_order cfg
         (ALERT_COOLDOWN_SEC cfg <=?
            now_failover env - default 0 (last_alert_time st !! "failover"))
         FailoverInCooldown (post_failover env)
         (FailoverMsg seen (pool r) (release r) (upstream_addr r) (utc_failover env))
       ++ rest)
  ∧ (∀ rate,
       check_error_rate (rolling_statuses (update_rolling_window cfg r st)) = Some rate →
       float_ge rate (ERROR_RATE_THRESHOLD cfg) = true →
       ∃ front, snd (process_record cfg env r st) =
         front ++
         gates_in_order cfg
           (ALERT_COOLDOWN_SEC cfg <=?
              now_error_rate env - default 0 (last_alert_time st !! "error_rate"))
           ErrorRateInCooldown (post_error_rate env)
           (ErrorRateMsg rate (len (rolling_statuses (update_rolling_window cfg r st)))
              (Some (pool r)) (utc_error_rate env))).
Proof.
  split.
  - intros seen E Hne. rewrite <- failover_alert_gates.
    by apply process_record_flip.
  - intros rate E G. rewrite <- error_rate_alert_gates.
    by apply process_record_high_rate.
Qed.

Lemma gates_cooldown_then_maintenance_then_webhook_witness :
  ∃ rest,
    snd (process_record webhook_config (env_at 1762214410 Delivered)
           (fields (str "GET / 200 pool=green release=v1 ")) (tracking_blue 1762214400 0))
    = [Print FailoverInCooldown] ++ rest.
Proof.
  destruct (gates_cooldown_then_maintenance_then_webhook webhook_config
              (env_at 1762214410 Delivered)
              (fields (str "GET / 200 pool=green release=v1 "))
              (tracking_blue 1762214400 0)) as [H _].
  apply (H (str "blue")); [reflexivity|]. vm_compute. discriminate.
Defined.

(** With maintenance mode on, or without a webhook, and a cooldown longer
    than the clock reading, a change of pool is reported as suppressed by
    the cooldown. *)
Lemma cooldown_line_despite_other_gates :
  (∃ st, run (maintenance_config 2000000000)
       [(str "GET / 200 pool=blue release=v1 ", env_at 1762214400 Delivered);
        (str "GET / 200 pool=green release=v1 ", env_at 1762214401 Delivered)]
     = Ok (st, [[]; [Print FailoverInCooldown]]))
  ∧ (∃ st, run (no_webhook_config 2000000000)
       [(str "GET / 200 pool=blue release=v1 ", env_at 1762214400 Delivered);
        (str "GET / 200 pool=green release=v1 ", env_at 1762214401 Delivered)]
     = Ok (st, [[]; [Print FailoverInCooldown]])).
Proof. split; eexists; vm_compute; reflexivity. Qed.

(** C1, as stated, fails: the maintenance flag is not looked at before the
    cooldown.  With [MAINTENANCE_MODE] on and [ALERT_COOLDOWN_SEC] at
    2000000000, the lines [pool=blue] then [pool=green], read at clock
    1762214400 and 1762214401, end with the cooldown line. *)
Lemma gates_maintenance_first_counterexample : ¬ gates_checked_before_cooldown.
Proof.
  intros H. destruct cooldown_line_despite_other_gates as [[st Hrun] _].
  destruct (H (maintenance_config 2000000000) _ _ _ (or_introl eq_refl) Hrun
              [Print FailoverInCooldown]) as [Hf _].
  - apply list_elem_of_In. right. left. reflexivity.
  - apply Hf. apply list_elem_of_In. left. reflexivity.
Qed.

(** ** The cooldown timestamps *)

Lemma process_record_failover_time cfg env r st seen :
  last_seen_pool st = Some seen → pool r ≠ seen →
  last_alert_time (fst (process_record cfg env r st)) !! "failover" =
  if (ALERT_COOLDOWN_SEC cfg <=?
        now_failover env - default 0 (last_alert_time st !! "failover"))
     && fst (post_slack cfg (post_failover env)
               (FailoverMsg seen (pool r) (release r) (upstream_addr r) (utc_failover env)))
  then Some (now_failover env)
  else last_alert_time st !! "failover".
Proof.
  intros E Hne. rewrite process_record_eq; simpl.
  destruct (alert_error_rate_keeps cfg env
    (fst (detect_pool_flip cfg env r (update_rolling_window cfg r st))))
    as (_ & _ & _ & ->).
  destruct (update_rolling_window_keeps cfg r st) as (Hp & Ht & _).
  rewrite (detect_pool_flip_change cfg env r (update_rolling_window cfg r st) seen)
    by (by rewrite ?Hp); simpl.
  rewrite Ht. destruct (_ && _); [|done]. by rewrite lookup_insert_eq.
Qed.

Lemma process_record_error_rate_time cfg env r st rate :
  check_error_rate (rolling_statuses (update_rolling_window cfg r st)) = Some rate →
  float_ge rate (ERROR_RATE_THRESHOLD cfg) = true →
  last_alert_time (fst (process_record cfg env r st)) !! "error_rate" =
  if (ALERT_COOLDOWN_SEC cfg <=?
        now_error_rate env - default 0 (last_alert_time st !! "error_rate"))
     && fst (post_slack cfg (post_error_rate env)
               (ErrorRateMsg rate (len (rolling_statuses (update_rolling_window cfg r st)))
                  (Some (pool r)) (utc_error_rate env)))
  then Some (now_error_rate env)
  else last_alert_time st !! "error_rate".
Proof.
  intros E G. rewrite process_record_eq; simpl.
  set (st1 := update_rolling_window cfg r st) in *.
  set (st2 := fst (detect_pool_flip cfg env r st1)).
  assert (rolling_statuses st2 = rolling_statuses st1) as Hw
    by apply detect_pool_flip_window.
  assert (last_alert_time st2 !! "error_rate" = last_alert_time st !! "error_rate") as Ht.
  { unfold st2. rewrite detect_pool_flip_error_rate_time. subst st1.
    by destruct (update_rolling_window_keeps cfg r st) as (_ & -> & _). }
  assert (last_seen_pool st2 = Some (pool r)) as Hp
    by apply detect_pool_flip_tracks.
  rewrite (alert_error_rate_fires cfg env st2 rate) by (by rewrite ?Hw); simpl.
  rewrite Hw, Ht, Hp. destruct (_ && _); [|done]. by rewrite lookup_insert_eq.
Qed.

Lemma process_record_quiet_time cfg env r st :
  (∀ rate, check_error_rate (rolling_statuses (update_rolling_window cfg r st)) = Some rate →
           float_ge rate (ERROR_RATE_THRESHOLD cfg) = false) →
  last_alert_time (fst (process_record cfg env r st)) !! "error_rate"
  = last_alert_time st !! "error_rate".
Proof.
  intros H. rewrite process_record_eq; cbn [fst].
  rewrite alert_error_rate_quiet by (by rewrite detect_pool_flip_window).
  cbn [fst]. rewrite detect_pool_flip_error_rate_time.
  by destruct (update_rolling_window_keeps cfg r st) as (_ & -> & _).
Qed.

(** Past the three gates the request is made, and [post_slack] returns what
    the transport reports. *)
Lemma post_slack_dispatched cfg net m :
  MAINTENANCE_MODE cfg = false → no_webhook (SLACK_WEBHOOK_URL cfg) = false →
  fst (post_slack cfg net m) = (if net is Delivered then true else false)
  ∧ ∃ line, snd (post_slack cfg net m)
            = [HttpPost (default "" (SLACK_WEBHOOK_URL cfg)) m; Print line].
Proof.
  intros Hm Hw. rewrite (post_slack_transport _ _ _ Hm Hw).
  destruct net; eauto.
Qed.

(** [post_slack] returns [True] only for a request that was made and
    delivered. *)
Lemma post_slack_true cfg net m :
  fst (post_slack cfg net m) = true →
  MAINTENANCE_MODE cfg = false ∧ no_webhook (SLACK_WEBHOOK_URL cfg) = false
  ∧ net = Delivered.
Proof.
  unfold post_slack. destruct (MAINTENANCE_MODE cfg); [done|].
  destruct (no_webhook _); [done|]. by destruct net.
Qed.

Lemma process_record_failover_time_cases cfg env r st :
  last_alert_time (fst (process_record cfg env r st)) !! "failover"
    = last_alert_time st !! "failover"
  ∨ ∃ seen, last_seen_pool st = Some seen ∧ pool r ≠ seen
      ∧ ALERT_COOLDOWN_SEC cfg
          ≤ now_failover env - default 0 (last_alert_time st !! "failover")
      ∧ fst (post_slack cfg (post_failover env)
               (FailoverMsg seen (pool r) (release r) (upstream_addr r)
                  (utc_failover env))) = true
      ∧ last_alert_time (fst (process_record cfg env r st)) !! "failover"
        = Some (now_failover env).
Proof.
  destruct (last_seen_pool st) as [seen|] eqn:E.
  - destruct (decide (pool r = seen)) as [Heq|Hne].
    + left. rewrite process_record_eq; cbn [fst].
      destruct (alert_error_rate_keeps cfg env
        (fst (detect_pool_flip cfg env r (update_rolling_window cfg r st))))
        as (_ & _ & _ & ->).
      destruct (update_rolling_window_keeps cfg r st) as (Hp & Ht & _).
      rewrite detect_pool_flip_same by (by rewrite Hp, E, Heq). cbn [fst].
      by rewrite Ht.
    + rewrite (process_record_failover_time cfg env r st seen E Hne).
      destruct (_ <=? _) eqn:Hcd; [|by left]. cbn [andb].
      destruct (fst (post_slack _ _ _)) eqn:Hposted; [|by left].
      right. exists seen. apply Z.leb_le in Hcd. by split_and!.
  - left. rewrite process_record_eq; cbn [fst].
    destruct (alert_error_rate_keeps cfg env
      (fst (detect_pool_flip cfg env r (update_rolling_window cfg r st))))
      as (_ & _ & _ & ->).
    destruct (update_rolling_window_keeps cfg r st) as (Hp & Ht & _).
    rewrite detect_pool_flip_first by (by rewrite Hp). cbn [fst].
    by rewrite Ht.
Qed.

Lemma process_record_error_rate_time_cases cfg env r st :
  last_alert_time (fst (process_record cfg env r st)) !! "error_rate"
    = last_alert_time st !! "error_rate"
  ∨ ∃ rate,
      check_error_rate (rolling_statuses (update_rolling_window cfg r st)) = Some rate
      ∧ float_ge rate (ERROR_RATE_THRESHOLD cfg) = true
      ∧ ALERT_COOLDOWN_SEC cfg
          ≤ now_error_rate env - default 0 (last_alert_time st !! "error_rate")
      ∧ fst (post_slack cfg (post_error_rate env)
               (ErrorRateMsg rate
                  (len (rolling_statuses (update_rolling_window cfg r st)))
                  (Some (pool r)) (utc_error_rate env))) = true
      ∧ last_alert_time (fst (process_record cfg env r st)) !! "error_rate"
        = Some (now_error_rate env).
Proof.
  destruct (check_error_rate (rolling_statuses (update_rolling_window cfg r st)))
    as [rate|] eqn:E.
  - destruct (float_ge rate (ERROR_RATE_THRESHOLD cfg)) eqn:G.
    + rewrite (process_record_error_rate_time cfg env r st rate E G).
      destruct (_ <=? _) eqn:Hcd; [|by left]. cbn [andb].
      destruct (fst (post_slack _ _ _)) eqn:Hposted; [|by left].
      right. exists rate. apply Z.leb_le in Hcd. by split_and!.
    + left. apply process_record_quiet_time. intros rate' E'. congruence.
  - left. apply process_record_quiet_time. intros rate' E'. congruence.
Qed.

(** C2. For every alert, of either kind.  When the alert is dispatched (the
    event is past the cooldown, maintenance mode is off and a webhook is
    configured, so that the request is made): if the transport delivers the
    request, the timestamp of its kind becomes the clock reading; if the
    transport fails, whatever the error, the timestamp keeps its value, and
    the next event of that kind, at any later clock reading (inside the
    cooldown window or not), makes the request again.  And on any line the
    timestamp of a kind changes only when an alert of that kind was
    dispatched and the transport delivered it. *)
Theorem cooldown_advances_only_on_success cfg env r st :
  let st' := fst (process_record cfg env r st) in
  (∀ seen, last_seen_pool st = Some seen → pool r ≠ seen →
     ALERT_COOLDOWN_SEC cfg
       ≤ now_failover env - default 0 (last_alert_time st !! "failover") →
     MAINTENANCE_MODE cfg = false → no_webhook (SLACK_WEBHOOK_URL cfg) = false →
     (∃ line rest, snd (process_record cfg env r st) =
        HttpPost (default "" (SLACK_WEBHOOK_URL cfg))
          (FailoverMsg seen (pool r) (release r) (upstream_addr r) (utc_failover env))
        :: Print line :: rest)
     ∧ (post_failover env = Delivered →
        last_alert_time st' !! "failover" = Some (now_failover env))
     ∧ (∀ e, post_failover env = Failed e →
        last_alert_time st' !! "failover" = last_alert_time st !! "failover"
        ∧ ∀ env2 r2, now_failover env ≤ now_failover env2 → pool r2 ≠ pool r →
            ∃ line rest, snd (process_record cfg env2 r2 st') =
              HttpPost (default "" (SLACK_WEBHOOK_URL cfg))
                (FailoverMsg (pool r) (pool r2) (release r2) (upstream_addr r2)
                   (utc_failover env2))
              :: Print line :: rest))
  ∧ (last_alert_time st' !! "failover" ≠ last_alert_time st !! "failover" →
     MAINTENANCE_MODE cfg = false ∧ no_webhook (SLACK_WEBHOOK_URL cfg) = false
     ∧ post_failover env = Delivered
     ∧ last_alert_time st' !! "failover" = Some (now_failover env))
  ∧ (∀ rate,
       check_error_rate (rolling_statuses (update_rolling_window cfg r st)) = Some rate →
       float_ge rate (ERROR_RATE_THRESHOLD cfg) = true →
       ALERT_COOLDOWN_SEC cfg
         ≤ now_error_rate env - default 0 (last_alert_time st !! "error_rate") →
       MAINTENANCE_MODE cfg = false → no_webhook (SLACK_WEBHOOK_URL cfg) = false →
       (∃ front line, snd (process_record cfg env r st) =
          front ++
          [HttpPost (default "" (SLACK_WEBHOOK_URL cfg))
             (ErrorRateMsg rate
                (len (rolling_statuses (update_rolling_window cfg r st)))
                (Some (pool r)) (utc_error_rate env));
           Print line])
       ∧ (post_error_rate env = Delivered →
          last_alert_time st' !! "error_rate" = Some (now_error_rate env))
       ∧ (∀ e, post_error_rate env = Failed e →
          last_alert_time st' !! "error_rate" = last_alert_time st !! "error_rate"
          ∧ ∀ env2 r2 rate2, now_error_rate env ≤ now_error_rate env2 →
              check_error_rate (rolling_statuses (update_rolling_window cfg r2 st'))
                = Some rate2 →
              float_ge rate2 (ERROR_RATE_THRESHOLD cfg) = true →
              ∃ front line, snd (process_record cfg env2 r2 st') =
                front ++
                [HttpPost (default "" (SLACK_WEBHOOK_URL cfg))
                   (ErrorRateMsg rate2
                      (len (rolling_statuses (update_rolling_window cfg r2 st')))
                      (Some (pool r2)) (utc_error_rate env2));
                 Print line]))
  ∧ (last_alert_time st' !! "error_rate" ≠ last_alert_time st !! "error_rate" →
     MAINTENANCE_MODE cfg = false ∧ no_webhook (SLACK_WEBHOOK_URL cfg) = false
     ∧ post_error_rate env = Delivered
     ∧ last_alert_time st' !! "error_rate" = Some (now_error_rate env)).
Proof.
  intros st'. split_and!.
  - intros seen E Hne Hcd Hmm Hwh.
    pose proof (process_record_failover_time cfg env r st seen E Hne) as Ht.
    fold st' in Ht. apply Z.leb_le in Hcd. rewrite Hcd in Ht. cbn [andb] in Ht.
    destruct (post_slack_dispatched cfg (post_failover env)
                (FailoverMsg seen (pool r) (release r) (upstream_addr r)
                   (utc_failover env)) Hmm Hwh) as [Hposted [line Hout]].
    rewrite Hposted in Ht. split_and!.
    + destruct (process_record_flip cfg env r st seen E Hne) as [rest Hrest].
      exists line, rest. rewrite Hrest. unfold failover_alert.
      by rewrite Hcd, Hout.
    + intros Hnet. by rewrite Hnet in Ht.
    + intros e Hnet. rewrite Hnet in Ht. split; [done|].
      intros env2 r2 Hmono Hne2.
      destruct (process_record_flip cfg env2 r2 st' (pool r)) as [rest Hrest];
        [apply process_record_tracks|done|].
      destruct (post_slack_dispatched cfg (post_failover env2)
                  (FailoverMsg (pool r) (pool r2) (release r2) (upstream_addr r2)
                     (utc_failover env2)) Hmm Hwh) as [_ [line2 Hout2]].
      exists line2, rest. rewrite Hrest. unfold failover_alert. rewrite Ht.
      replace (_ <=? _) with true; [by rewrite Hout2|].
      symmetry. apply Z.leb_le. apply Z.leb_le in Hcd. lia.
  - intros Hchanged.
    destruct (process_record_failover_time_cases cfg env r st)
      as [Hsame|(seen & _ & _ & _ & Hposted & Hnow)]; [done|].
    apply post_slack_true in Hposted as (? & ? & ?). by split_and!.
  - intros rate E G Hcd Hmm Hwh.
    pose proof (process_record_error_rate_time cfg env r st rate E G) as Ht.
    fold st' in Ht. apply Z.leb_le in Hcd. rewrite Hcd in Ht. cbn [andb] in Ht.
    destruct (post_slack_dispatched cfg (post_error_rate env)
                (ErrorRateMsg rate
                   (len (rolling_statuses (update_rolling_window cfg r st)))
                   (Some (pool r)) (utc_error_rate env)) Hmm Hwh)
      as [Hposted [line Hout]].
    rewrite Hposted in Ht. split_and!.
    + destruct (process_record_high_rate cfg env r st rate E G) as [front Hfront].
      exists front, line. rewrite Hfront. unfold error_rate_alert.
      by rewrite Hcd, Hout.
    + intros Hnet. by rewrite Hnet in Ht.
    + intros e Hnet. rewrite Hnet in Ht. split; [done|].
      intros env2 r2 rate2 Hmono E2 G2.
      destruct (process_record_high_rate cfg env2 r2 st' rate2 E2 G2)
        as [front Hfront].
      destruct (post_slack_dispatched cfg (post_error_rate env2)
                  (ErrorRateMsg rate2
                     (len (rolling_statuses (update_rolling_window cfg r2 st')))
                     (Some (pool r2)) (utc_error_rate env2)) Hmm Hwh)
        as [_ [line2 Hout2]].
      exists front, line2. rewrite Hfront. unfold error_rate_alert. rewrite Ht.
      replace (_ <=? _) with true; [by rewrite Hout2|].
      symmetry. apply Z.leb_le. apply Z.leb_le in Hcd. lia.
  - intros Hchanged.
    destruct (process_record_error_rate_time_cases cfg env r st)
      as [Hsame|(rate & _ & _ & _ & Hposted & Hnow)]; [done|].
    apply post_slack_true in Hposted as (? & ? & ?). by split_and!.
Qed.

(** A change of pool at clock 1762214400: delivered, the timestamp becomes
    1762214400; failed with a timeout, it stays at 0 and the change of pool
    seen ten seconds later is posted. *)
Lemma cooldown_advances_only_on_success_witness :
  last_alert_time
    (fst (process_record webhook_config (env_at 1762214400 Delivered)
            (fields (str "GET / 200 pool=green release=v2 ")) (tracking_blue 0 0)))
    !! "failover" = Some 1762214400
  ∧ last_alert_time
      (fst (process_record webhook_config (env_at 1762214400 (Failed "timeout"))
              (fields (str "GET / 200 pool=green release=v2 ")) (tracking_blue 0 0)))
      !! "failover" = Some 0
  ∧ ∃ line rest,
      snd (process_record webhook_config (env_at 1762214410 Delivered)
             (fields (str "GET / 200 pool=blue release=v1 "))
             (fst (process_record webhook_config (env_at 1762214400 (Failed "timeout"))
                     (fields (str "GET / 200 pool=green release=v2 ")) (tracking_blue 0 0))))
      = HttpPost "https://hooks.example/T0"
          (FailoverMsg (str "green") (str "blue") (str "v1") [] "2026-11-04T00:00:00")
        :: Print line :: rest.
Proof.
  split.
  - destruct (cooldown_advances_only_on_success webhook_config
                (env_at 1762214400 Delivered)
                (fields (str "GET / 200 pool=green release=v2 ")) (tracking_blue 0 0))
      as [H _].
    destruct (H (str "blue")) as (_ & Hd & _).
    + reflexivity.
    + vm_compute. discriminate.
    + vm_compute. discriminate.
    + reflexivity.
    + reflexivity.
    + apply Hd. reflexivity.
  - destruct (cooldown_advances_only_on_success webhook_config
                (env_at 1762214400 (Failed "timeout"))
                (fields (str "GET / 200 pool=green release=v2 ")) (tracking_blue 0 0))
      as [H _].
    destruct (H (str "blue")) as (_ & _ & Hf).
    + reflexivity.
    + vm_compute. discriminate.
    + vm_compute. discriminate.
    + reflexivity.
    + reflexivity.
    + destruct (Hf "timeout") as [Ht Hretry]; [reflexivity|]. split; [exact Ht|].
      apply (Hretry (env_at 1762214410 Delivered)
               (fields (str "GET / 200 pool=blue release=v1 "))).
      * vm_compute. discriminate.
      * vm_compute. discriminate.
Defined.

(** ** The rolling window *)

Lemma append_items x d :
  items (append x d) =
  if maxlen d <? len d + 1 then tail (items d ++ [x]) else items d ++ [x].
Proof.
  unfold append, len; simpl. rewrite length_app; simpl.
  by replace (Z.of_nat (length (items d) + 1)) with (Z.of_nat (length (items d)) + 1) by lia.
Qed.

Lemma append_maxlen x d : maxlen (append x d) = maxlen d.
Proof. reflexivity. Qed.

Lemma append_len x d :
  len (append x d) = if maxlen d <? len d + 1 then len d else len d + 1.
Proof.
  unfold len at 1. rewrite append_items.
  destruct (_ <? _).
  - unfold len. destruct (items d); simpl; [done|].
    rewrite length_app; simpl. lia.
  - unfold len. rewrite length_app; simpl. lia.
Qed.


Lemma check_error_rate_short d : len d < 10 → check_error_rate d = None.
Proof.
  unfold check_error_rate. intros H.
  by replace (len d <? 10) with true by (symmetry; by apply Z.ltb_lt).
Qed.


Lemma init_state_Ok cfg :
  0 ≤ WINDOW_SIZE cfg →
  init_state cfg = Ok (initial_state (empty_window (WINDOW_SIZE cfg))).
Proof.
  intros H. unfold init_state, deque_new.
  by replace (WINDOW_SIZE cfg <? 0) with false by (symmetry; by apply Z.ltb_ge).
Qed.

Lemma init_state_inv cfg st :
  init_state cfg = Ok st →
  0 ≤ WINDOW_SIZE cfg ∧ st = initial_state (empty_window (WINDOW_SIZE cfg)).
Proof.
  unfold init_state, deque_new. destruct (WINDOW_SIZE cfg <? 0) eqn:E; [done|].
  apply Z.ltb_ge in E. by intros [= <-].
Qed.

(** ** The failover detector *)









(** ** C4 and C9: the rolling window *)

Lemma reachable_window cfg st :
  reachable cfg st →
  0 ≤ WINDOW_SIZE cfg
  ∧ maxlen (rolling_statuses st) = WINDOW_SIZE cfg
  ∧ len (rolling_statuses st) ≤ WINDOW_SIZE cfg.
Proof.
  intros (st0 & input & Hinit & ->).
  apply init_state_inv in Hinit as [Hws ->]. split; [done|].
  assert (∀ s, maxlen (rolling_statuses s) = WINDOW_SIZE cfg
               ∧ len (rolling_statuses s) ≤ WINDOW_SIZE cfg →
               maxlen (rolling_statuses (fst (main_loop cfg input s))) = WINDOW_SIZE cfg
               ∧ len (rolling_statuses (fst (main_loop cfg input s))) ≤ WINDOW_SIZE cfg) as H.
  { induction input as [|[line env] input IH]; intros s Hs; [done|].
    rewrite main_loop_cons; cbn [fst]. apply IH.
    rewrite process_record_window. unfold update_rolling_window.
    destruct (0 <? WINDOW_SIZE cfg); [|done]. cbn [rolling_statuses].
    rewrite append_maxlen, append_len. destruct Hs as [Hm Hl]. rewrite Hm.
    split; [done|]. destruct (_ <? _) eqn:E; [done|]. apply Z.ltb_ge in E. lia. }
  apply H. split; [done|]. by unfold len.
Qed.

(** C4. In every state the program reaches, whatever the lines, the window
    holds at most [WINDOW_SIZE] statuses; a line pushes its status at the
    right end of a window that is not full, and on a full window (of positive
    capacity) it drops the oldest status, the leftmost, and keeps the others
    in order before the new one (for any capacity: the new window is the old
    one with the status pushed and the leftmost item dropped). *)
Theorem rolling_window_bounded_fifo cfg st :
  reachable cfg st →
  len (rolling_statuses st) ≤ WINDOW_SIZE cfg
  ∧ ∀ env line,
      let st' := fst (main_step cfg env line st) in
      let x := status (fields line) in
      (len (rolling_statuses st) < WINDOW_SIZE cfg →
         items (rolling_statuses st') = items (rolling_statuses st) ++ [x])
      ∧ (len (rolling_statuses st) = WINDOW_SIZE cfg → 0 < WINDOW_SIZE cfg →
         ∃ oldest kept,
           items (rolling_statuses st) = oldest :: kept
           ∧ items (rolling_statuses st') = kept ++ [x])
      ∧ (len (rolling_statuses st) = WINDOW_SIZE cfg →
         items (rolling_statuses st') = tail (items (rolling_statuses st) ++ [x])).
Proof.
  intros Hr. destruct (reachable_window cfg st Hr) as (Hws & Hm & Hl).
  split; [done|]. intros env line st' x. subst st'.
  rewrite main_step_eq, process_record_window. unfold update_rolling_window.
  split; [|split]; cycle 2.
  - intros Hfull. destruct (0 <? WINDOW_SIZE cfg) eqn:Epos.
    + cbn [rolling_statuses]. rewrite append_items, Hm.
      by replace (WINDOW_SIZE cfg <? len (rolling_statuses st) + 1) with true
        by (symmetry; apply Z.ltb_lt; lia).
    + apply Z.ltb_ge in Epos. unfold len in Hfull.
      destruct (items (rolling_statuses st)); [done|simpl in Hfull; lia].
  - intros Hlt.
    replace (0 <? WINDOW_SIZE cfg) with true
      by (symmetry; apply Z.ltb_lt; unfold len in *; lia).
    cbn [rolling_statuses]. rewrite append_items, Hm.
    by replace (WINDOW_SIZE cfg <? len (rolling_statuses st) + 1) with false
      by (symmetry; apply Z.ltb_ge; lia).
  - intros Hfull Hpos.
    replace (0 <? WINDOW_SIZE cfg) with true by (symmetry; by apply Z.ltb_lt).
    cbn [rolling_statuses]. rewrite append_items, Hm.
    replace (WINDOW_SIZE cfg <? len (rolling_statuses st) + 1) with true
      by (symmetry; apply Z.ltb_lt; lia).
    unfold len in Hfull.
    destruct (items (rolling_statuses st)) as [|oldest kept]; [simpl in *; lia|].
    by exists oldest, kept.
Qed.

Lemma rolling_window_bounded_fifo_witness :
  len (rolling_statuses
         (fst (main_loop (window_config 2)
                 [(str "GET / 200 pool=blue ", env_at 1762214400 Delivered);
                  (str "GET / 404 pool=blue ", env_at 1762214401 Delivered);
                  (str "GET / 500 pool=blue ", env_at 1762214402 Delivered)]
                 (initial_state (empty_window 2))))) ≤ 2
  ∧ items (rolling_statuses
         (fst (main_loop (window_config 2)
                 [(str "GET / 200 pool=blue ", env_at 1762214400 Delivered);
                  (str "GET / 404 pool=blue ", env_at 1762214401 Delivered);
                  (str "GET / 500 pool=blue ", env_at 1762214402 Delivered)]
                 (initial_state (empty_window 2))))) = [404; 500].
Proof.
  split; [|reflexivity].
  apply (rolling_window_bounded_fifo (window_config 2)).
  exists (initial_state (empty_window 2)),
    [(str "GET / 200 pool=blue ", env_at 1762214400 Delivered);
     (str "GET / 404 pool=blue ", env_at 1762214401 Delivered);
     (str "GET / 500 pool=blue ", env_at 1762214402 Delivered)].
  split; reflexivity.
Defined.

(** With a capacity of 0 the window is disabled: it stays empty and the
    error rate is never defined. *)
Lemma window_disabled_at_zero cfg st :
  WINDOW_SIZE cfg = 0 → reachable cfg st →
  items (rolling_statuses st) = [] ∧ check_error_rate (rolling_statuses st) = None.
Proof.
  intros H0 Hr. destruct (reachable_window cfg st Hr) as (_ & _ & Hl).
  rewrite H0 in Hl. unfold len in Hl.
  destruct (items (rolling_statuses st)) eqn:E; [|simpl in Hl; lia].
  split; [done|]. apply check_error_rate_short. unfold len. rewrite E. done.
Qed.

(** C9, where the code departs from it.  A negative [WINDOW_SIZE] does not
    give a disabled window: [deque(maxlen=WINDOW_SIZE)] raises [ValueError]
    when the module is initialised, before any line is read. *)
Theorem negative_window_size_raises cfg input :
  WINDOW_SIZE cfg < 0 → run cfg input = Raise ValueError.
Proof.
  intros H. unfold run, init_state, deque_new.
  by replace (WINDOW_SIZE cfg <? 0) with true by (symmetry; by apply Z.ltb_lt).
Qed.

Lemma negative_window_size_raises_witness :
  run (window_config (-1))
    [(str "GET / 200 pool=blue ", env_at 1762214400 Delivered)] = Raise ValueError.
Proof. apply negative_window_size_raises. reflexivity. Defined.

(** ** Rounding to binary64, bounded from above *)

Lemma fexp_eq e : fexp prec emax e = Z.max (e - 53) (-1074).
Proof. reflexivity. Qed.

Lemma Zdigits2_bounds p :
  2 ^ (Zdigits2 (Zpos p) - 1) ≤ Zpos p < 2 ^ Zdigits2 (Zpos p).
Proof.
  induction p as [p IH|p IH|]; simpl Zdigits2 in *.
  - rewrite Pos2Z.inj_succ.
    replace (Z.succ (Zpos (digits2_pos p)) - 1) with (Z.succ (Zpos (digits2_pos p) - 1)) by lia.
    rewrite !Z.pow_succ_r by lia. lia.
  - rewrite Pos2Z.inj_succ.
    replace (Z.succ (Zpos (digits2_pos p)) - 1) with (Z.succ (Zpos (digits2_pos p) - 1)) by lia.
    rewrite !Z.pow_succ_r by lia. lia.
  - simpl. lia.
Qed.

Lemma Zdigits2_le m k : 0 ≤ m < 2 ^ k → 0 ≤ k → Zdigits2 m ≤ k.
Proof.
  intros [H0 Hk] Hk0. destruct m as [|p|p]; [done| |lia].
  pose proof (Zdigits2_bounds p) as [Hd _].
  destruct (Z_lt_le_dec k (Zdigits2 (Zpos p))) as [Hlt|]; [|done].
  exfalso. assert (2 ^ k ≤ 2 ^ (Zdigits2 (Zpos p) - 1)); [|lia].
  apply Z.pow_le_mono_r; lia.
Qed.

Lemma shr_1_spec mrs :
  0 ≤ shr_m mrs →
  shr_m (shr_1 mrs) = shr_m mrs / 2
  ∧ (inexact (shr_1 mrs) = true → inexact mrs = true ∨ Z.odd (shr_m mrs) = true).
Proof.
  destruct mrs as [m r s]. unfold inexact.
  cbn [shr_m shr_r shr_s]. intros Hm.
  destruct m as [|[p|p|]|]; cbn [shr_1 shr_m shr_r shr_s]; [| | | |lia].
  - split; [done|]. intros H; left; by destruct r, s.
  - split; [|by auto]. apply Z.div_unique with (r := 1); lia.
  - split; [|intros H; left; by destruct r, s].
    apply Z.div_unique with (r := 0); lia.
  - split; [done|]. by auto.
Qed.

Lemma iter_pos_invariant {A} (f : A → A) (P : Z → A → Prop) :
  (∀ k x, 0 ≤ k → P k x → P (k + 1) (f x)) →
  ∀ p k x, 0 ≤ k → P k x → P (k + Zpos p) (SpecFloat.iter_pos f p x).
Proof.
  intros Hf. induction p as [p IH|p IH|]; intros k x Hk HP; simpl.
  - replace (k + Zpos p~1) with (k + 1 + Zpos p + Zpos p) by lia.
    apply IH; [lia|]. apply IH; [lia|]. by apply Hf.
  - replace (k + Zpos p~0) with (k + Zpos p + Zpos p) by lia.
    apply IH; [lia|]. by apply IH.
  - by apply Hf.
Qed.

Lemma shr_iter p mrs :
  0 ≤ shr_m mrs →
  let mrs' := SpecFloat.iter_pos shr_1 p mrs in
  0 ≤ shr_m mrs'
  ∧ shr_m mrs' = shr_m mrs / 2 ^ Zpos p
  ∧ (inexact mrs' = true → inexact mrs = true ∨ ¬ (2 ^ Zpos p | shr_m mrs)).
Proof.
  intros Hm.
  pose (P := λ (k : Z) (x : shr_record),
    0 ≤ shr_m x ∧ shr_m x = shr_m mrs / 2 ^ k
    ∧ (inexact x = true → inexact mrs = true ∨ ¬ (2 ^ k | shr_m mrs))).
  apply (iter_pos_invariant shr_1 P) with (k := 0); [|lia|].
  - intros k x Hk (Hx & Hdiv & Hin).
    destruct (shr_1_spec x Hx) as [Hm1 Hin1]. unfold P. split_and!.
    + rewrite Hm1. apply Z.div_pos; lia.
    + rewrite Hm1, Hdiv, Z.div_div, Z.pow_add_r by lia. done.
    + intros H1. destruct (Hin1 H1) as [Hx1|Hodd].
      * destruct (Hin Hx1) as [?|Hnd]; [by left|]. right.
        intros [t Ht]. apply Hnd. exists (t * 2).
        rewrite Ht, Z.pow_add_r by lia. simpl (2 ^ 1). lia.
      * right. intros [t Ht].
        rewrite Hdiv, Ht, Z.pow_add_r in Hodd by lia.
        replace (t * (2 ^ k * 2 ^ 1)) with (t * 2 * 2 ^ k) in Hodd by (simpl (2 ^ 1); lia).
        rewrite Z.div_mul in Hodd by lia.
        rewrite Z.odd_mul in Hodd. simpl in Hodd.
        by rewrite andb_false_r in Hodd.
  - unfold P. split_and!; [done|by rewrite Z.div_1_r|by left].
Qed.

Lemma shr_record_of_loc_spec m l :
  shr_m (shr_record_of_loc m l) = m
  ∧ (if inexact (shr_record_of_loc m l) then 1 else 0) = loc_weight l.
Proof. by destruct l as [|[]]. Qed.

Lemma quotient_below (m q w w' P T : Z) :
  0 < P → P * q ≤ m → m + w ≤ T * P → 0 ≤ w →
  (w' = 0 ∨ (w' = 1 ∧ (w = 1 ∨ ¬ (P | m)))) →
  q + w' ≤ T.
Proof.
  intros HP Hq Hm Hw [->|[-> Hin]]; [nia|].
  destruct (Z_lt_le_dec q T) as [|Hge]; [lia|]. exfalso.
  assert (m = q * P ∧ w = 0) as [Hmq ->] by nia.
  destruct Hin as [?|Hnd]; [lia|]. apply Hnd. by exists q.
Qed.

(** One alignment step of the rounding keeps a mantissa below a bound that
    is itself a binary64 number. *)
Lemma shr_fexp_bound m e l (M : positive) E :
  0 ≤ m → e ≤ E → -1074 ≤ E → Zpos M < 2 ^ 53 →
  m + loc_weight l ≤ Zpos M * 2 ^ (E - e) →
  ∃ mrs e', shr_fexp prec emax m e l = (mrs, e')
    ∧ 0 ≤ shr_m mrs ∧ e' ≤ E
    ∧ shr_m mrs + (if inexact mrs then 1 else 0) ≤ Zpos M * 2 ^ (E - e').
Proof.
  intros Hm He HE HM Hb.
  destruct (shr_record_of_loc_spec m l) as [Hm0 Hw0].
  unfold shr_fexp, shr. rewrite fexp_eq.
  destruct (Z.max (Zdigits2 m + e - 53) (-1074) - e) as [|p|p] eqn:En.
  - eexists _, _. split; [done|]. rewrite Hm0, Hw0. done.
  - assert (0 ≤ loc_weight l) as Hw by (by destruct l).
    assert (0 < 2 ^ (E - e)) as Hpow by (apply Z.pow_pos_nonneg; lia).
    assert (Zdigits2 m ≤ 53 + E - e) as Hd.
    { apply Zdigits2_le; [|lia]. split; [done|].
      replace (2 ^ (53 + E - e)) with (2 ^ 53 * 2 ^ (E - e))
        by (rewrite <- Z.pow_add_r by lia; f_equal; lia).
      nia. }
    assert (e + Zpos p ≤ E) as He' by lia.
    destruct (shr_iter p (shr_record_of_loc m l)) as (Hq0 & Hq & Hin); [lia|].
    rewrite Hm0 in Hq, Hin.
    eexists _, _. split; [done|]. split; [done|]. split; [done|].
    set (mrs := SpecFloat.iter_pos shr_1 p (shr_record_of_loc m l)) in *.
    assert (0 < 2 ^ Zpos p) as HP by (apply Z.pow_pos_nonneg; lia).
    assert (2 ^ (E - e) = 2 ^ (E - (e + Zpos p)) * 2 ^ Zpos p) as Hsplit
      by (rewrite <- Z.pow_add_r by lia; f_equal; lia).
    apply (quotient_below m (shr_m mrs) (loc_weight l) _ (2 ^ Zpos p)); try done.
    + rewrite Hq. apply Z.mul_div_le. lia.
    + rewrite Hsplit in Hb. lia.
    + destruct (inexact mrs) eqn:Ei; [right|by left]. split; [done|].
      destruct (Hin eq_refl) as [H0|H0]; [left|by right].
      rewrite H0 in Hw0. done.
  - eexists _, _. split; [done|]. rewrite Hm0, Hw0. done.
Qed.

Lemma round_nearest_even_le mrs :
  0 ≤ shr_m mrs →
  0 ≤ round_nearest_even (shr_m mrs) (loc_of_shr_record mrs)
    ≤ shr_m mrs + (if inexact mrs then 1 else 0).
Proof.
  destruct mrs as [m [] []]; unfold inexact; simpl; intros H;
    try destruct (Z.even m); lia.
Qed.

(** Rounding cannot go above a binary64 number that the exact value does
    not exceed: the result of [binary_round_aux] on a non-negative mantissa
    is zero or a finite positive number whose value is at most [M * 2^E]. *)
Lemma binary_round_aux_below mx ex lx (M : positive) E :
  0 ≤ mx → ex ≤ E → -1074 ≤ E ≤ 971 → Zpos M < 2 ^ 53 →
  mx + loc_weight lx ≤ Zpos M * 2 ^ (E - ex) →
  binary_round_aux prec emax false mx ex lx = S754_zero false
  ∨ ∃ m e, binary_round_aux prec emax false mx ex lx = S754_finite false m e
      ∧ e ≤ E ∧ Zpos m ≤ Zpos M * 2 ^ (E - e).
Proof.
  intros Hm He [HE1 HE2] HM Hb.
  destruct (shr_fexp_bound mx ex lx M E) as (mrs1 & e1 & E1 & Hm1 & He1 & Hb1);
    try done.
  pose proof (round_nearest_even_le mrs1 Hm1) as [Hr0 Hr1].
  destruct (shr_fexp_bound (round_nearest_even (shr_m mrs1) (loc_of_shr_record mrs1))
              e1 loc_Exact M E) as (mrs2 & e2 & E2 & Hm2 & He2 & Hb2);
    try done; [simpl; lia|].
  unfold binary_round_aux. rewrite E1, E2.
  destruct (shr_m mrs2) as [|m|m] eqn:Em; [by left| |lia].
  right. exists m, e2.
  replace (e2 <=? emax - prec) with true
    by (symmetry; apply Z.leb_le; unfold emax, prec; lia).
  split; [done|]. split; [done|]. destruct (inexact mrs2); lia.
Qed.

Lemma new_location_weight b r :
  0 ≤ loc_weight (new_location b r) ≤ 1
  ∧ (r = 0 → loc_weight (new_location b r) = 0).
Proof.
  unfold new_location, new_location_even, new_location_odd.
  destruct (Z.even b), (r =? 0) eqn:E; simpl; split; try lia;
    intros ->; discriminate.
Qed.

(** The quotient of two positive integers, before rounding, when the
    numerator is not above the denominator: at most 1. *)
Lemma SFdiv_core_below (a b : positive) :
  Zpos a ≤ Zpos b →
  ∃ q e l, SFdiv_core_binary prec emax (Zpos a) 0 (Zpos b) 0 = (q, e, l)
    ∧ 0 ≤ q ∧ e ≤ -52 ∧ q + loc_weight l ≤ 2 ^ (- e).
Proof.
  intros Hab. unfold SFdiv_core_binary. rewrite fexp_eq.
  assert (Zdigits2 (Zpos a) ≤ Zdigits2 (Zpos b)) as Hd.
  { apply Zdigits2_le; [|done].
    pose proof (Zdigits2_bounds b). lia. }
  set (e' := Z.min _ _).
  assert (-1074 ≤ e' ≤ -53) as He' by (unfold e'; lia).
  destruct (0 - 0 - e') as [|s|s] eqn:Es; [lia| |lia].
  rewrite Z.shiftl_mul_pow2 by lia.
  pose proof (Z_div_mod (Zpos a * 2 ^ Zpos s) (Zpos b) eq_refl) as Hdm.
  destruct (Z.div_eucl _ _) as [q r]. destruct Hdm as [Hdm Hr].
  exists q, e', (new_location (Zpos b) r). split; [done|].
  assert (0 < 2 ^ Zpos s) as HP by (apply Z.pow_pos_nonneg; lia).
  replace (- e') with (Zpos s) by lia.
  destruct (new_location_weight (Zpos b) r) as [Hw Hw0].
  split; [nia|]. split; [lia|].
  destruct (Z.eq_dec r 0) as [->|Hr0].
  - rewrite Hw0 by done. nia.
  - assert (q < 2 ^ Zpos s) by nia. lia.
Qed.

(** [a / b] for integers [0 <= a <= b], [b] positive, is a float between 0
    and 1. *)
Lemma int_truediv_below a b :
  0 ≤ a ≤ b → 0 < b →
  int_truediv a b = S754_zero false
  ∨ ∃ m e, int_truediv a b = S754_finite false m e
      ∧ e ≤ -52 ∧ Zpos m ≤ 2 ^ (- e).
Proof.
  intros [Ha Hab] Hb. destruct b as [|b|b]; [lia| |lia].
  destruct a as [|a|a]; [by left| |lia].
  unfold int_truediv. cbn [Z.ltb Z.compare xorb].
  change (Z.abs (Zpos a)) with (Zpos a). change (Z.abs (Zpos b)) with (Zpos b).
  destruct (SFdiv_core_below a b Hab) as (q & e & l & -> & Hq & He & Hql).
  destruct (binary_round_aux_below q e l 4503599627370496 (-52))
    as [->|(m & e2 & -> & He2 & Hm)]; try done.
  - replace (2 ^ (-52 - e)) with (2 ^ (- e) / 2 ^ 52).
    + change (Zpos 4503599627370496) with (2 ^ 52).
      rewrite <- Z.divide_div_mul_exact, Z.mul_comm, Z.div_mul; [done|lia|lia|].
      exists (2 ^ (-52 - e)). rewrite <- Z.pow_add_r by lia. f_equal. lia.
    + rewrite <- Z.pow_sub_r by lia. f_equal. lia.
  - by left.
  - right. exists m, e2. split; [done|]. split; [done|].
    change (Zpos 4503599627370496) with (2 ^ 52) in Hm.
    rewrite <- Z.pow_add_r in Hm by lia.
    by replace (52 + (-52 - e2)) with (- e2) in Hm by lia.
Qed.

(** ** C5: the error rate *)

Lemma float_of_int_100 : float_of_int 100 = S754_finite false 7036874417766400 (-46).
Proof. reflexivity. Qed.

(** A float that is zero or a finite positive number of value at most
    [M * 2^E] compares as such. *)
Lemma float_le_below x (M : positive) E :
  x = S754_zero false
  ∨ (∃ m e, x = S754_finite false m e ∧ e ≤ E ∧ Zpos m ≤ Zpos M * 2 ^ (E - e)) →
  float_le (S754_zero false) x = true
  ∧ float_le x (S754_finite false M E) = true.
Proof.
  intros [->|(m & e & -> & He & Hm)]; [done|]. split; [done|].
  unfold float_le, SFleb, SFcompare.
  destruct (Z.compare_spec e E) as [->|Hlt|Hgt]; [|done|lia].
  rewrite Z.sub_diag in Hm. simpl in Hm.
  change (Pos.compare_cont Eq m M) with (Pos.compare m M).
  destruct (Pos.compare_spec m M); [done|done|lia].
Qed.

(** A float between 0 and 1, times 100, is between 0 and 100. *)
Lemma percent_below x :
  x = S754_zero false
  ∨ (∃ m e, x = S754_finite false m e ∧ e ≤ -52 ∧ Zpos m ≤ 2 ^ (- e)) →
  float_le (S754_zero false) (float_mul x (float_of_int 100)) = true
  ∧ float_le (float_mul x (float_of_int 100)) (float_of_int 100) = true.
Proof.
  intros Hx. rewrite float_of_int_100.
  apply float_le_below.
  destruct Hx as [->|(m & e & -> & He & Hm)]; [by left|].
  unfold float_mul, SFmul. cbn [xorb].
  apply binary_round_aux_below; try done; [lia|].
  replace (-46 - (e + -46)) with (- e) by lia.
  cbn [loc_weight]. rewrite Pos2Z.inj_mul. nia.
Qed.

Lemma count_errors_filter d :
  count_errors d = Z.of_nat (length (filter (λ s : Z, 500 ≤ s < 600) (items d))).
Proof.
  unfold count_errors. induction (items d) as [|s l IH]; [done|].
  rewrite filter_cons. simpl. rewrite IH. unfold is_5xx.
  destruct (decide (500 ≤ s < 600)) as [[H1 H2]|Hn].
  - apply Z.leb_le in H1. apply Z.ltb_lt in H2. rewrite H1, H2. cbn [andb length]. lia.
  - destruct (500 <=? s) eqn:E1; [|done]. destruct (s <? 600) eqn:E2; [|done].
    apply Z.leb_le in E1. apply Z.ltb_lt in E2. exfalso. by apply Hn.
Qed.

Lemma count_errors_range d : 0 ≤ count_errors d ≤ len d.
Proof.
  rewrite count_errors_filter. unfold len. split; [lia|].
  apply inj_le, length_filter.
Qed.

(** C5. [check_error_rate] returns [None] exactly when the window holds
    fewer than 10 statuses; otherwise it returns the float
    [count / length * 100], where [count] is the number of statuses [s] of
    the window with [500 <= s < 600], and that float lies between 0 and 100. *)
Theorem check_error_rate_defined_from_ten (d : deque) :
  (check_error_rate d = None ↔ len d < 10)
  ∧ (10 ≤ len d →
     ∃ rate, check_error_rate d = Some rate
       ∧ rate = float_mul
                  (int_truediv
                     (Z.of_nat (length (filter (λ s : Z, 500 ≤ s < 600) (items d))))
                     (len d))
                  (float_of_int 100)
       ∧ float_le (float_of_int 0) rate = true
       ∧ float_le rate (float_of_int 100) = true).
Proof.
  unfold check_error_rate. split.
  - destruct (len d <? 10) eqn:E.
    + apply Z.ltb_lt in E. done.
    + apply Z.ltb_ge in E. split; [done|lia].
  - intros H.
    replace (len d <? 10) with false by (symmetry; apply Z.ltb_ge; lia).
    eexists. split; [done|]. rewrite <- count_errors_filter. split; [done|].
    apply percent_below, int_truediv_below; [apply count_errors_range|lia].
Qed.

Lemma check_error_rate_defined_from_ten_witness :
  check_error_rate {| items := repeat 200 19 ++ [500]; maxlen := 20 |}
  = Some (float_of_int 5).
Proof.
  destruct (check_error_rate_defined_from_ten
              {| items := repeat 200 19 ++ [500]; maxlen := 20 |}) as [_ H].
  destruct H as (rate & -> & -> & _); [vm_compute; discriminate|].
  vm_compute. reflexivity.
Defined.

(** ** C6: the error-rate alert *)

Lemma float_ge_refl x : float_le (S754_zero false) x = true → float_ge x x = true.
Proof.
  unfold float_ge, float_le, SFleb.
  destruct x as [[]|[]| |[] m e]; simpl; try done.
  by rewrite Z.compare_refl, Pos.compare_cont_refl.
Qed.

Lemma check_error_rate_items d d' :
  items d = items d' → check_error_rate d = check_error_rate d'.
Proof.
  intros H. unfold check_error_rate, count_errors, len. by rewrite H.
Qed.

Lemma update_rolling_window_push cfg r st :
  0 < WINDOW_SIZE cfg →
  maxlen (rolling_statuses st) = WINDOW_SIZE cfg →
  len (rolling_statuses st) < WINDOW_SIZE cfg →
  maxlen (rolling_statuses (update_rolling_window cfg r st)) = WINDOW_SIZE cfg
  ∧ items (rolling_statuses (update_rolling_window cfg r st))
    = items (rolling_statuses st) ++ [status r].
Proof.
  intros Hpos Hm Hl. unfold update_rolling_window.
  replace (0 <? WINDOW_SIZE cfg) with true by (symmetry; by apply Z.ltb_lt).
  cbn [rolling_statuses]. rewrite append_maxlen, append_items, Hm.
  by replace (WINDOW_SIZE cfg <? len (rolling_statuses st) + 1) with false
    by (symmetry; apply Z.ltb_ge; lia).
Qed.

Lemma count_errors_all_200 d k : items d = repeat 200 k → count_errors d = 0.
Proof.
  unfold count_errors. intros ->. induction k as [|k IH]; [done|].
  simpl. by rewrite IH.
Qed.

(** A window of statuses 200 never reaches a threshold of 2.0. *)
Lemma all_200_quiet d k rate :
  items d = repeat 200 k →
  check_error_rate d = Some rate → float_ge rate (float_of_int 2) = false.
Proof.
  intros Hi. unfold check_error_rate. rewrite (count_errors_all_200 d k Hi).
  destruct (len d <? 10) eqn:E; [done|]. apply Z.ltb_ge in E.
  destruct (len d) as [|p|p]; [lia| |lia]. by intros [= <-].
Qed.

(** The first lines of the scenario: the window fills with statuses 200 and
    no error-rate alert is sent. *)
Lemma all_200_prefix cfg input :
  WINDOW_SIZE cfg = 20 → ERROR_RATE_THRESHOLD cfg = float_of_int 2 →
  Forall (λ le : text * Env, status (fields le.1) = 200) input →
  ∀ st k,
    maxlen (rolling_statuses st) = 20 →
    items (rolling_statuses st) = repeat 200 k →
    (k + length input < 20)%nat →
    let st' := fst (main_loop cfg input st) in
    maxlen (rolling_statuses st') = 20
    ∧ items (rolling_statuses st') = repeat 200 (k + length input)
    ∧ last_alert_time st' !! "error_rate" = last_alert_time st !! "error_rate".
Proof.
  intros Hws Hthr Hall.
  induction Hall as [|[line env] input Hline _ IH]; intros st k Hm Hi Hk.
  - simpl. by rewrite Nat.add_0_r.
  - change (status (fields line) = 200) in Hline. simpl length in *.
    rewrite main_loop_cons. cbn [fst].
    destruct (update_rolling_window_push cfg (fields line) st) as [Hm' Hi'].
    { lia. } { congruence. }
    { unfold len. rewrite Hi, repeat_length, Hws. lia. }
    rewrite Hi, Hline in Hi'.
    replace (repeat 200 k ++ [200]) with (repeat 200 (S k)) in Hi'
      by (simpl; apply repeat_cons).
    destruct (IH (fst (process_record cfg env (fields line) st)) (S k))
      as (Hm2 & Hi2 & Ht2).
    + rewrite process_record_window. congruence.
    + by rewrite process_record_window.
    + lia.
    + split; [done|]. split.
      * rewrite Hi2. f_equal. lia.
      * rewrite Ht2. apply process_record_quiet_time.
        intros rate. rewrite Hthr. by apply all_200_quiet with (k := S k).
Qed.

Lemma check_error_rate_range d rate :
  check_error_rate d = Some rate →
  float_le (S754_zero false) rate = true
  ∧ float_le rate (float_of_int 100) = true.
Proof.
  unfold check_error_rate. destruct (len d <? 10) eqn:E; [done|].
  apply Z.ltb_ge in E. intros [= <-].
  apply percent_below, int_truediv_below; [apply count_errors_range|lia].
Qed.

(** C6. On every line, once its status is pushed, if [check_error_rate]
    returns a rate and the rate is at least the threshold (a rate equal to
    the threshold qualifies), the error-rate alert is run, whatever happened
    on the lines before: inside the cooldown it prints the cooldown line,
    past it the message handed to [post_slack] carries that rate, the length
    of the window, and the pool of the line.  With a window of 20 and a
    threshold of 2.0, after 19 lines of status 200 the line of status 500 runs
    the alert with the rate 5.0 and the length 20. *)
Theorem high_error_rate_alert_on_every_qualifying_line cfg env r st :
  (∀ rate,
     check_error_rate (rolling_statuses (update_rolling_window cfg r st)) = Some rate →
     float_ge rate (ERROR_RATE_THRESHOLD cfg) = true →
     ∃ front, snd (process_record cfg env r st) =
       front ++
       error_rate_alert cfg env (default 0 (last_alert_time st !! "error_rate")) rate
         (len (rolling_statuses (update_rolling_window cfg r st))) (Some (pool r)))
  ∧ (∀ rate,
       check_error_rate (rolling_statuses (update_rolling_window cfg r st)) = Some rate →
       ERROR_RATE_THRESHOLD cfg = rate →
       float_ge rate (ERROR_RATE_THRESHOLD cfg) = true)
  ∧ (∀ env' last rate w p, error_rate_alert cfg env' last rate w p ≠ [])
  ∧ (WINDOW_SIZE cfg = 20 → ERROR_RATE_THRESHOLD cfg = float_of_int 2 →
     ∀ first19 l20 e20,
       length first19 = 19%nat →
       Forall (λ le : text * Env, status (fields le.1) = 200) first19 →
       status (fields l20) = 500 →
       ∃ st' outs front,
         run cfg (first19 ++ [(l20, e20)])
         = Ok (st',
               outs ++
               [front ++
                error_rate_alert cfg e20 0 (float_of_int 5) 20
                  (Some (pool (fields l20)))])).
Proof.
  split_and!.
  - intros rate. apply process_record_high_rate.
  - intros rate E Hr. rewrite Hr. apply float_ge_refl.
    destruct (check_error_rate_range
                (rolling_statuses (update_rolling_window cfg r st)) rate E)
      as [H _]. exact H.
  - intros env' last rate w p. unfold error_rate_alert, post_slack.
    destruct (_ <=? _); [|done].
    destruct (MAINTENANCE_MODE cfg); [done|].
    destruct (no_webhook _); [done|]. by destruct (post_error_rate env').
  - intros Hws Hthr first19 l20 e20 Hlen Hall H500.
    unfold run. rewrite init_state_Ok by lia. unfold mbind, result_bind.
    set (s0 := initial_state (empty_window (WINDOW_SIZE cfg))).
    rewrite main_loop_app, main_loop_cons. cbn [main_loop fst snd].
    destruct (all_200_prefix cfg first19 Hws Hthr Hall s0 0%nat)
      as (Hm & Hi & Ht); [done|done|lia|].
    set (s19 := fst (main_loop cfg first19 s0)) in *.
    rewrite Hlen in Hi. cbn [Nat.add] in Hi.
    destruct (update_rolling_window_push cfg (fields l20) s19) as [Hm' Hi'].
    { lia. } { congruence. }
    { unfold len. rewrite Hi, repeat_length, Hws. lia. }
    rewrite Hi, H500 in Hi'.
    destruct (process_record_high_rate cfg e20 (fields l20) s19 (float_of_int 5))
      as [front Hout].
    { rewrite (check_error_rate_items _
                 {| items := repeat 200 19 ++ [500]; maxlen := 20 |}) by done.
      vm_compute. reflexivity. }
    { rewrite Hthr. reflexivity. }
    eexists _, _, front. rewrite Hout, Ht.
    replace (len (rolling_statuses (update_rolling_window cfg (fields l20) s19)))
      with 20 by (unfold len; by rewrite Hi').
    reflexivity.
Qed.

Lemma high_error_rate_alert_on_every_qualifying_line_witness :
  ∃ st outs front,
    run scenario_config
      (repeat (str "GET / 200 pool=blue release=v1 ", env_at 1762214400 Delivered) 19
       ++ [(str "GET / 500 pool=blue release=v1 ", env_at 1762214401 Delivered)])
    = Ok (st,
          outs ++
          [front ++
           [HttpPost "https://hooks.example/T0"
              (ErrorRateMsg (float_of_int 5) 20 (Some (str "blue")) "2026-11-04T00:00:00");
            Print PostedToSlack]]).
Proof.
  destruct (high_error_rate_alert_on_every_qualifying_line scenario_config
              (env_at 1762214400 Delivered) (fields [])
              (initial_state (empty_window 20))) as (_ & _ & _ & H).
  destruct (H eq_refl eq_refl
              (repeat (str "GET / 200 pool=blue release=v1 ", env_at 1762214400 Delivered) 19)
              (str "GET / 500 pool=blue release=v1 ") (env_at 1762214401 Delivered))
    as (st & outs & front & Hrun).
  - reflexivity.
  - repeat constructor.
  - reflexivity.
  - exists st, outs, front. rewrite Hrun. reflexivity.
Defined.

(** * Further properties *)

(** ** Inside the cooldown *)

Lemma gates_in_order_cooldown cfg line net msg :
  gates_in_order cfg false line net msg = [Print line].
Proof. reflexivity. Qed.

Lemma failover_alert_no_error_rate_post cfg env last from r :
  Forall (λ o, is_error_rate_post o = false) (failover_alert cfg env last from r).
Proof.
  rewrite failover_alert_gates. unfold gates_in_order.
  destruct (negb _); [repeat constructor|].
  destruct (MAINTENANCE_MODE cfg); [repeat constructor|].
  destruct (no_webhook (SLACK_WEBHOOK_URL cfg)); repeat constructor.
Qed.

Lemma error_rate_alert_no_failover_post cfg env last rate w p :
  Forall (λ o, is_failover_post o = false) (error_rate_alert cfg env last rate w p).
Proof.
  rewrite error_rate_alert_gates. unfold gates_in_order.
  destruct (negb _); [repeat constructor|].
  destruct (MAINTENANCE_MODE cfg); [repeat constructor|].
  destruct (no_webhook (SLACK_WEBHOOK_URL cfg)); repeat constructor.
Qed.

(** X2. A change of pool seen less than [ALERT_COOLDOWN_SEC] seconds after
    the last failover alert that was sent prints the cooldown line, makes no
    failover request and leaves the timestamp as it is; likewise for a high
    error rate inside the cooldown of the last error-rate alert. *)
Theorem alert_inside_cooldown_is_suppressed cfg env r st :
  (∀ seen last,
     last_seen_pool st = Some seen → pool r ≠ seen →
     last_alert_time st !! "failover" = Some last →
     now_failover env - last < ALERT_COOLDOWN_SEC cfg →
     (∃ rest, snd (process_record cfg env r st) = Print FailoverInCooldown :: rest)
     ∧ Forall (λ o, is_failover_post o = false) (snd (process_record cfg env r st))
     ∧ last_alert_time (fst (process_record cfg env r st)) !! "failover" = Some last)
  ∧ (∀ rate last,
       check_error_rate (rolling_statuses (update_rolling_window cfg r st)) = Some rate →
       float_ge rate (ERROR_RATE_THRESHOLD cfg) = true →
       last_alert_time st !! "error_rate" = Some last →
       now_error_rate env - last < ALERT_COOLDOWN_SEC cfg →
       (∃ front, snd (process_record cfg env r st) = front ++ [Print ErrorRateInCooldown])
       ∧ Forall (λ o, is_error_rate_post o = false) (snd (process_record cfg env r st))
       ∧ last_alert_time (fst (process_record cfg env r st)) !! "error_rate" = Some last).
Proof.
  split.
  - intros seen last E Hne Hl Hcd.
    assert ((ALERT_COOLDOWN_SEC cfg <=?
               now_failover env - default 0 (last_alert_time st !! "failover")) = false)
      as Hleb by (rewrite Hl; apply Z.leb_gt; simpl; lia).
    split_and!.
    + destruct (process_record_flip cfg env r st seen E Hne) as [rest Hout].
      exists rest. rewrite Hout. unfold failover_alert. by rewrite Hleb.
    + rewrite process_record_eq; cbn [snd]. apply Forall_app. split.
      * destruct (update_rolling_window_keeps cfg r st) as (Hp & Ht & _).
        rewrite (detect_pool_flip_change cfg env r _ seen) by (by rewrite ?Hp).
        cbn [snd]. unfold failover_alert. rewrite Ht, Hleb. repeat constructor.
      * destruct (alert_error_rate_outputs cfg env
          (fst (detect_pool_flip cfg env r (update_rolling_window cfg r st))))
          as [->|(rate & _ & _ & ->)]; [constructor|].
        apply error_rate_alert_no_failover_post.
    + rewrite (process_record_failover_time cfg env r st seen E Hne), Hleb. done.
  - intros rate last E G Hl Hcd.
    assert ((ALERT_COOLDOWN_SEC cfg <=?
               now_error_rate env - default 0 (last_alert_time st !! "error_rate")) = false)
      as Hleb by (rewrite Hl; apply Z.leb_gt; simpl; lia).
    split_and!.
    + destruct (process_record_high_rate cfg env r st rate E G) as [front Hout].
      exists front. rewrite Hout. unfold error_rate_alert. by rewrite Hleb.
    + destruct (process_record_high_rate cfg env r st rate E G) as [front Hout].
      rewrite process_record_eq; cbn [snd]. apply Forall_app. split.
      * destruct (detect_pool_flip_outputs cfg env r (update_rolling_window cfg r st))
          as [->|(seen & _ & _ & ->)]; [constructor|].
        apply failover_alert_no_error_rate_post.
      * set (st2 := fst (detect_pool_flip cfg env r (update_rolling_window cfg r st))).
        assert (rolling_statuses st2 = rolling_statuses (update_rolling_window cfg r st))
          as Hw by apply detect_pool_flip_window.
        assert (last_alert_time st2 !! "error_rate" = last_alert_time st !! "error_rate") as Ht.
        { unfold st2. rewrite detect_pool_flip_error_rate_time.
          by destruct (update_rolling_window_keeps cfg r st) as (_ & -> & _). }
        rewrite (alert_error_rate_fires cfg env st2 rate) by (by rewrite ?Hw).
        cbn [snd]. unfold error_rate_alert. rewrite Ht, Hleb. repeat constructor.
    + rewrite (process_record_error_rate_time cfg env r st rate E G), Hleb. done.
Qed.

Lemma alert_inside_cooldown_is_suppressed_witness :
  ∃ rest,
    snd (process_record webhook_config (env_at 1762214410 Delivered)
           (fields (str "GET / 200 pool=green release=v2 ")) (tracking_blue 1762214400 0))
    = Print FailoverInCooldown :: rest.
Proof.
  destruct (alert_inside_cooldown_is_suppressed webhook_config
              (env_at 1762214410 Delivered)
              (fields (str "GET / 200 pool=green release=v2 "))
              (tracking_blue 1762214400 0)) as [H _].
  destruct (H (str "blue") 1762214400) as [Hout _].
  - reflexivity.
  - vm_compute. discriminate.
  - reflexivity.
  - vm_compute. reflexivity.
  - exact Hout.
Defined.

(** ** The tracked pool and the window over a whole run *)

(** X3. After any non-empty sequence of lines, from any state, the tracked
    pool is the pool of the last line (the default ["unknown"] when that line
    has no pool), whatever alerts were sent or suppressed on the way. *)
Theorem tracked_pool_is_last_pool cfg input line env st :
  last_seen_pool (fst (main_loop cfg (input ++ [(line, env)]) st))
  = Some (pool (fields line)).
Proof.
  rewrite main_loop_app, main_loop_cons. cbn [fst main_loop].
  apply process_record_tracks.
Qed.

Lemma append_last_items x d (n : nat) :
  maxlen d = Z.of_nat n → (0 < n)%nat → (length (items d) ≤ n)%nat →
  items (append x d) = drop (length (items d ++ [x]) - n) (items d ++ [x]).
Proof.
  intros Hm Hn Hl. rewrite append_items, Hm. unfold len.
  rewrite length_app. simpl length.
  destruct (Z.of_nat n <? Z.of_nat (length (items d)) + 1) eqn:E.
  - apply Z.ltb_lt in E.
    replace (length (items d) + 1 - n)%nat with 1%nat by lia.
    by destruct (items d).
  - apply Z.ltb_ge in E.
    by replace (length (items d) + 1 - n)%nat with 0%nat by lia.
Qed.

Lemma drop_last_snoc {A} (l : list A) x (n : nat) :
  (0 < n)%nat →
  drop (length (drop (length l - n) l ++ [x]) - n) (drop (length l - n) l ++ [x])
  = drop (length (l ++ [x]) - n) (l ++ [x]).
Proof.
  intros Hn. rewrite !length_app, length_drop. simpl length.
  destruct (decide (length l < n)%nat) as [Hlt|Hge].
  - replace (length l - n)%nat with 0%nat by lia. rewrite drop_0.
    by replace (length l - 0 + 1 - n)%nat with (length l + 1 - n)%nat by lia.
  - replace (length l - (length l - n) + 1 - n)%nat with 1%nat by lia.
    replace (length l + 1 - n)%nat with (S (length l - n)) by lia.
    rewrite (drop_app_le l [x]) by lia.
    rewrite drop_app_le by (rewrite length_drop; lia).
    by rewrite drop_drop, Nat.add_1_r.
Qed.

(** X4. With a positive [WINDOW_SIZE], after any sequence of lines from the
    initial state, the window holds the statuses of the last [WINDOW_SIZE]
    lines, in the order of the lines (of all the lines when there are
    fewer). *)
Theorem window_holds_last_statuses cfg st0 input :
  init_state cfg = Ok st0 → 0 < WINDOW_SIZE cfg →
  items (rolling_statuses (fst (main_loop cfg input st0)))
  = drop (length input - Z.to_nat (WINDOW_SIZE cfg)) (statuses input).
Proof.
  intros Hinit Hpos. apply init_state_inv in Hinit as [_ ->].
  set (n := Z.to_nat (WINDOW_SIZE cfg)).
  assert (WINDOW_SIZE cfg = Z.of_nat n) as Hn by (unfold n; lia).
  assert (0 < n)%nat as Hn0 by lia.
  induction input as [|[line env] input IH] using rev_ind.
  - reflexivity.
  - rewrite main_loop_app, main_loop_cons. cbn [fst main_loop].
    rewrite process_record_window.
    set (st := fst (main_loop cfg input (initial_state (empty_window (WINDOW_SIZE cfg))))) in *.
    assert (reachable cfg st) as Hr.
    { exists (initial_state (empty_window (WINDOW_SIZE cfg))), input.
      split; [apply init_state_Ok; lia|done]. }
    destruct (reachable_window cfg st Hr) as (_ & Hm & Hl).
    unfold update_rolling_window.
    replace (0 <? WINDOW_SIZE cfg) with true by (symmetry; by apply Z.ltb_lt).
    cbn [rolling_statuses].
    rewrite (append_last_items _ _ n); [|congruence|done|unfold len in Hl; lia].
    rewrite IH. unfold statuses. rewrite map_app. cbn [map fst].
    rewrite <- (length_map (λ le : text * Env, status (fields le.1)) input).
    rewrite drop_last_snoc by done.
    by rewrite !length_app, !length_map.
Qed.

Lemma window_holds_last_statuses_witness :
  items (rolling_statuses
           (fst (main_loop (window_config 2)
                   [(str "GET / 200 pool=blue ", env_at 1762214400 Delivered);
                    (str "GET / 404 pool=blue ", env_at 1762214401 Delivered);
                    (str "GET / 500 pool=blue ", env_at 1762214402 Delivered)]
                   (initial_state (empty_window 2)))))
  = [404; 500].
Proof.
  rewrite (window_holds_last_statuses (window_config 2) (initial_state (empty_window 2)));
    reflexivity.
Defined.

(** ** What the alerts say, and when nothing is written *)

Lemma gates_in_order_messages cfg past line net msg o m :
  message_of (Print line) = None →
  o ∈ gates_in_order cfg past line net msg → message_of o = Some m → m = msg.
Proof.
  unfold gates_in_order. intros Hline.
  destruct (negb past); [|destruct (MAINTENANCE_MODE cfg);
    [|destruct (no_webhook (SLACK_WEBHOOK_URL cfg))]];
    intros Ho Hm; repeat (apply elem_of_cons in Ho as [->|Ho]);
    try (by apply elem_of_nil in Ho); try destruct net; simpl in *; congruence.
Qed.

(** X5. Every message a line makes the program post or print as suppressed
    describes that line: a failover message names the pool tracked before
    the line as its origin and the pool, release and upstream address of the
    line; an error-rate message carries the rate [check_error_rate] returns
    on the window once the status is pushed, the length of that window, and
    the pool of the line as current pool. *)
Theorem alert_messages_describe_the_line cfg env r st o m :
  o ∈ snd (process_record cfg env r st) → message_of o = Some m →
  (∃ seen, last_seen_pool st = Some seen ∧ pool r ≠ seen
     ∧ m = FailoverMsg seen (pool r) (release r) (upstream_addr r) (utc_failover env))
  ∨ (∃ rate,
       check_error_rate (rolling_statuses (update_rolling_window cfg r st)) = Some rate
       ∧ float_ge rate (ERROR_RATE_THRESHOLD cfg) = true
       ∧ m = ErrorRateMsg rate (len (rolling_statuses (update_rolling_window cfg r st)))
               (Some (pool r)) (utc_error_rate env)).
Proof.
  rewrite process_record_eq; cbn [snd]. intros Ho Hm.
  destruct (update_rolling_window_keeps cfg r st) as (Hp & Ht & _).
  apply elem_of_app in Ho as [Ho|Ho].
  - left.
    destruct (detect_pool_flip_outputs cfg env r (update_rolling_window cfg r st))
      as [E|(seen & E & Hne & Hout)].
    + rewrite E in Ho. by apply elem_of_nil in Ho.
    + exists seen. rewrite Hp in E. split; [done|]. split; [done|].
      rewrite Hout, failover_alert_gates in Ho.
      eapply gates_in_order_messages; [|exact Ho|exact Hm]; reflexivity.
  - right.
    destruct (alert_error_rate_outputs cfg env
      (fst (detect_pool_flip cfg env r (update_rolling_window cfg r st))))
      as [E|(rate & E & G & Hout)].
    + rewrite E in Ho. by apply elem_of_nil in Ho.
    + exists rate. rewrite Hout in Ho.
      rewrite detect_pool_flip_window in E, Ho.
      rewrite detect_pool_flip_tracks in Ho.
      split; [done|]. split; [done|].
      rewrite error_rate_alert_gates in Ho.
      eapply gates_in_order_messages; [|exact Ho|exact Hm]; reflexivity.
Qed.

Lemma alert_messages_describe_the_line_witness :
  ∃ seen,
    last_seen_pool (tracking_blue 0 0) = Some seen
    ∧ FailoverMsg (str "blue") (str "green") (str "v2") (str "10.0.0.2:80") "2026-11-04T00:00:00"
      = FailoverMsg seen (str "green") (str "v2") (str "10.0.0.2:80") "2026-11-04T00:00:00".
Proof.
  destruct (alert_messages_describe_the_line webhook_config
              (env_at 1762214400 Delivered)
              (fields (str "GET / 200 pool=green release=v2 upstream_addr=10.0.0.2:80 "))
              (tracking_blue 0 0)
              (HttpPost "https://hooks.example/T0"
                 (FailoverMsg (str "blue") (str "green") (str "v2") (str "10.0.0.2:80") "2026-11-04T00:00:00"))
              (FailoverMsg (str "blue") (str "green") (str "v2") (str "10.0.0.2:80") "2026-11-04T00:00:00"))
    as [(seen & Hs & _ & Hm)|(rate & _ & _ & Hm)].
  - apply list_elem_of_In. left. reflexivity.
  - reflexivity.
  - exists seen. split; [exact Hs|exact Hm].
  - discriminate Hm.
Defined.

(** X6. A line whose pool is the tracked one (or the first line) and whose
    window, once its status is pushed, has fewer than ten statuses or a rate
    below the threshold writes nothing and leaves the alert timestamps
    untouched: without a change of pool or a high rate the program is
    silent. *)
Theorem silent_without_event cfg env r st :
  last_seen_pool st = None ∨ last_seen_pool st = Some (pool r) →
  (∀ rate,
     check_error_rate (rolling_statuses (update_rolling_window cfg r st)) = Some rate →
     float_ge rate (ERROR_RATE_THRESHOLD cfg) = false) →
  snd (process_record cfg env r st) = []
  ∧ last_alert_time (fst (process_record cfg env r st)) = last_alert_time st.
Proof.
  intros Hp Hq. rewrite process_record_eq; cbn [fst snd].
  destruct (update_rolling_window_keeps cfg r st) as (Hp' & Ht & _).
  rewrite alert_error_rate_quiet by (by rewrite detect_pool_flip_window).
  cbn [fst snd]. rewrite app_nil_r.
  destruct Hp as [E|E].
  - rewrite detect_pool_flip_first by (by rewrite Hp'). done.
  - rewrite detect_pool_flip_same by (by rewrite Hp'). done.
Qed.

Lemma silent_without_event_witness :
  snd (process_record webhook_config (env_at 1762214400 Delivered)
         (fields (str "GET / 500 pool=blue release=v1 ")) (tracking_blue 0 0)) = [].
Proof.
  apply silent_without_event.
  - right. reflexivity.
  - intros rate H. vm_compute in H. discriminate.
Defined.

(** ** The threshold at its edges *)

(** The shape of a rate: zero, or a positive finite float of value at most
    100. *)
Lemma check_error_rate_shape d rate :
  check_error_rate d = Some rate →
  rate = S754_zero false
  ∨ ∃ m e, rate = S754_finite false m e ∧ e ≤ -46
      ∧ Zpos m ≤ 7036874417766400 * 2 ^ (-46 - e).
Proof.
  unfold check_error_rate. destruct (len d <? 10) eqn:E; [done|].
  apply Z.ltb_ge in E. intros [= <-].
  change (binary_round prec emax false 100 0) with (float_of_int 100).
  rewrite float_of_int_100.
  destruct (int_truediv_below (count_errors d) (len d))
    as [->|(m & e & -> & He & Hm)]; [apply count_errors_range|lia|by left|].
  unfold float_mul, SFmul. cbn [xorb].
  apply binary_round_aux_below; try done; [lia|].
  replace (-46 - (e + -46)) with (- e) by lia.
  cbn [loc_weight]. rewrite Pos2Z.inj_mul. nia.
Qed.

Lemma failover_alert_no_error_rate_output cfg env last from r :
  Forall (λ o, is_error_rate_output o = false) (failover_alert cfg env last from r).
Proof.
  rewrite failover_alert_gates. unfold gates_in_order.
  destruct (negb _); [repeat constructor|].
  destruct (MAINTENANCE_MODE cfg); [repeat constructor|].
  destruct (no_webhook (SLACK_WEBHOOK_URL cfg)); [repeat constructor|].
  destruct (post_failover env); repeat constructor.
Qed.

Lemma check_error_rate_None d : check_error_rate d = None ↔ len d < 10.
Proof.
  unfold check_error_rate. destruct (len d <? 10) eqn:E.
  - apply Z.ltb_lt in E. done.
  - apply Z.ltb_ge in E. split; [done|lia].
Qed.

(** X7. With a threshold of zero or below, every line alerts once the window
    holds ten statuses: the error-rate alert is run whatever the statuses
    are, even when none is an error. *)
Theorem threshold_zero_alerts_on_every_line cfg env r st :
  float_le (ERROR_RATE_THRESHOLD cfg) (float_of_int 0) = true →
  10 ≤ len (rolling_statuses (update_rolling_window cfg r st)) →
  ∃ rate front,
    check_error_rate (rolling_statuses (update_rolling_window cfg r st)) = Some rate
    ∧ snd (process_record cfg env r st) =
      front ++
      error_rate_alert cfg env (default 0 (last_alert_time st !! "error_rate")) rate
        (len (rolling_statuses (update_rolling_window cfg r st))) (Some (pool r)).
Proof.
  intros Hthr Hlen.
  destruct (check_error_rate (rolling_statuses (update_rolling_window cfg r st)))
    as [rate|] eqn:E; [|rewrite check_error_rate_None in E; lia].
  assert (float_ge rate (ERROR_RATE_THRESHOLD cfg) = true) as G.
  { unfold float_ge, float_le in *.
    destruct (check_error_rate_shape _ _ E) as [->|(m & e & -> & _)];
      destruct (ERROR_RATE_THRESHOLD cfg) as [[]|[]| |[] mt et]; done. }
  destruct (process_record_high_rate cfg env r st rate E G) as [front Hout].
  by exists rate, front.
Qed.

Lemma threshold_zero_alerts_on_every_line_witness :
  ∃ rate front,
    check_error_rate
      (rolling_statuses
         (update_rolling_window
            {| SLACK_WEBHOOK_URL := None; ERROR_RATE_THRESHOLD := float_of_int 0;
               WINDOW_SIZE := 20; ALERT_COOLDOWN_SEC := 300; MAINTENANCE_MODE := false |}
            (fields (str "GET / 200 pool=blue "))
            {| last_seen_pool := Some (str "blue");
               rolling_statuses := {| items := repeat 200 9; maxlen := 20 |};
               last_alert_time := ∅; last_release_by_pool := ∅ |})) = Some rate
    ∧ snd (process_record
            {| SLACK_WEBHOOK_URL := None; ERROR_RATE_THRESHOLD := float_of_int 0;
               WINDOW_SIZE := 20; ALERT_COOLDOWN_SEC := 300; MAINTENANCE_MODE := false |}
            (env_at 1762214400 Delivered)
            (fields (str "GET / 200 pool=blue "))
            {| last_seen_pool := Some (str "blue");
               rolling_statuses := {| items := repeat 200 9; maxlen := 20 |};
               last_alert_time := ∅; last_release_by_pool := ∅ |})
      = front ++
        [Print (NoWebhookSkipped
                  (ErrorRateMsg rate 10 (Some (str "blue")) "2026-11-04T00:00:00"))].
Proof.
  apply (threshold_zero_alerts_on_every_line
           {| SLACK_WEBHOOK_URL := None; ERROR_RATE_THRESHOLD := float_of_int 0;
              WINDOW_SIZE := 20; ALERT_COOLDOWN_SEC := 300; MAINTENANCE_MODE := false |}
           (env_at 1762214400 Delivered)).
  - reflexivity.
  - vm_compute. discriminate.
Defined.

(** X8. With a threshold that is not a number, or above 100, no line ever
    runs the error-rate alert: nothing a line writes is the error-rate
    cooldown line or carries an error-rate message, and the error-rate
    timestamp never moves. *)
Theorem threshold_above_100_never_alerts cfg env r st :
  ERROR_RATE_THRESHOLD cfg = S754_nan
  ∨ float_lt (float_of_int 100) (ERROR_RATE_THRESHOLD cfg) = true →
  Forall (λ o, is_error_rate_output o = false) (snd (process_record cfg env r st))
  ∧ last_alert_time (fst (process_record cfg env r st)) !! "error_rate"
    = last_alert_time st !! "error_rate".
Proof.
  intros Hthr.
  assert (∀ d rate, check_error_rate d = Some rate →
                    float_ge rate (ERROR_RATE_THRESHOLD cfg) = false) as Hq.
  { intros d rate E. unfold float_ge.
    destruct Hthr as [->|Hlt]; [done|].
    rewrite float_of_int_100 in Hlt. unfold float_lt, SFltb, SFleb in *.
    destruct (ERROR_RATE_THRESHOLD cfg) as [[]|[]| |[] mt et]; try done.
    - by destruct (check_error_rate_shape _ _ E) as [->|(m & e & -> & _)].
    - cbn [SFcompare] in Hlt.
      destruct (check_error_rate_shape _ _ E) as [->|(m & e & -> & He & Hm)]; [done|].
      cbn [SFcompare].
      destruct (Z.compare_spec (-46) et) as [Heq|Hl|Hg]; [subst et| |done].
      + destruct (Z.compare_spec (-46) e) as [Heq|Hl'|Hg']; [subst e|lia|done].
        change (Pos.compare_cont Eq mt m) with (Pos.compare mt m).
        change (Pos.compare_cont Eq 7036874417766400 mt)
          with (Pos.compare 7036874417766400 mt) in Hlt.
        destruct (Pos.compare_spec 7036874417766400 mt); try done.
        rewrite Z.sub_diag in Hm. simpl in Hm.
        destruct (Pos.compare_spec mt m); [lia|lia|done].
      + destruct (Z.compare_spec et e); [lia|lia|done]. }
  split.
  - rewrite process_record_eq; cbn [snd].
    rewrite alert_error_rate_quiet by (intros rate; apply Hq).
    cbn [snd]. rewrite app_nil_r.
    destruct (detect_pool_flip_outputs cfg env r (update_rolling_window cfg r st))
      as [->|(seen & _ & _ & ->)]; [constructor|].
    apply failover_alert_no_error_rate_output.
  - apply process_record_quiet_time. intros rate. apply Hq.
Qed.

Lemma threshold_above_100_never_alerts_witness :
  last_alert_time
    (fst (process_record
            {| SLACK_WEBHOOK_URL := None; ERROR_RATE_THRESHOLD := float_of_int 101;
               WINDOW_SIZE := 20; ALERT_COOLDOWN_SEC := 300; MAINTENANCE_MODE := false |}
            (env_at 1762214400 Delivered)
            (fields (str "GET / 500 pool=blue "))
            {| last_seen_pool := Some (str "blue");
               rolling_statuses := {| items := repeat 500 9; maxlen := 20 |};
               last_alert_time := ∅; last_release_by_pool := ∅ |}))
    !! "error_rate" = None.
Proof.
  apply (threshold_above_100_never_alerts
           {| SLACK_WEBHOOK_URL := None; ERROR_RATE_THRESHOLD := float_of_int 101;
              WINDOW_SIZE := 20; ALERT_COOLDOWN_SEC := 300; MAINTENANCE_MODE := false |}
           (env_at 1762214400 Delivered)).
  right. reflexivity.
Defined.

(** ** The rate at its ends *)

Lemma int_truediv_same (n : Z) :
  0 < n → int_truediv n n = float_of_int 1.
Proof.
  intros Hn. destruct n as [|a|a]; [lia| |lia].
  unfold int_truediv. cbn [Z.ltb Z.compare xorb].
  change (Z.abs (Zpos a)) with (Zpos a).
  unfold SFdiv_core_binary. rewrite fexp_eq.
  replace (Zdigits2 (Zpos a) + 0 - (Zdigits2 (Zpos a) + 0)) with 0 by lia.
  change (Z.min (Z.max (0 - 53) (-1074)) (0 - 0)) with (-53).
  change (0 - 0 - -53) with 53.
  rewrite Z.shiftl_mul_pow2 by lia.
  pose proof (Z_div_mod (Zpos a * 2 ^ 53) (Zpos a) eq_refl) as Hdm.
  destruct (Z.div_eucl (Zpos a * 2 ^ 53) (Zpos a)) as [q r].
  destruct Hdm as [Hdm Hr].
  assert (q = 2 ^ 53 ∧ r = 0) as [-> ->].
  { generalize dependent (2 ^ 53). intros P Hdm.
    assert (q = P) by (apply Z.le_antisymm; nia). lia. }
  replace (new_location (Zpos a) 0) with loc_Exact
    by (unfold new_location, new_location_even, new_location_odd;
        by destruct (Z.even (Zpos a))).
  vm_compute. reflexivity.
Qed.

(** X9. When the window holds at least ten statuses, the rate is exactly 0.0
    if none of them is a 5xx, and exactly 100.0 if all of them are. *)
Theorem error_rate_at_its_ends (d : deque) :
  10 ≤ len d →
  (Forall (λ s, is_5xx s = false) (items d) → check_error_rate d = Some (float_of_int 0))
  ∧ (Forall (λ s, is_5xx s = true) (items d) → check_error_rate d = Some (float_of_int 100)).
Proof.
  intros Hlen. unfold check_error_rate.
  replace (len d <? 10) with false by (symmetry; apply Z.ltb_ge; lia).
  split; intros Hall.
  - assert (count_errors d = 0) as ->.
    { unfold count_errors. induction Hall as [|s l Hs _ IH]; [done|].
      simpl. by rewrite Hs. }
    destruct (len d) as [|p|p]; [lia| |lia]. reflexivity.
  - assert (count_errors d = len d) as ->.
    { unfold count_errors, len. induction Hall as [|s l Hs _ IH]; [done|].
      cbn [fold_right length]. rewrite Hs, IH. lia. }
    rewrite int_truediv_same by lia. reflexivity.
Qed.

Lemma error_rate_at_its_ends_witness :
  check_error_rate {| items := repeat 503 12; maxlen := 200 |} = Some (float_of_int 100).
Proof.
  apply (error_rate_at_its_ends {| items := repeat 503 12; maxlen := 200 |}).
  - vm_compute. discriminate.
  - repeat constructor.
Defined.

(** ** What the patterns extract *)

Lemma nonspace_run_spec s :
  ∃ rest, s = nonspace_run s ++ rest
    ∧ no_space (nonspace_run s) = true ∧ ends_token rest = true.
Proof.
  induction s as [|c s (rest & Hs & Hn & He)].
  - by exists [].
  - simpl. destruct (is_space c) eqn:Ec.
    + exists (c :: s). by rewrite text_app_nil.
    + exists rest. rewrite text_app_cons, <- Hs. simpl. by rewrite Ec.
Qed.

Lemma match_kv_here_Some key s v :
  match_kv_here key s = Some v →
  ∃ rest, s = key ++ v ++ rest
    ∧ v ≠ [] ∧ no_space v = true ∧ ends_token rest = true.
Proof.
  unfold match_kv_here.
  destruct (strip_literal key s) as [after|] eqn:E; [|done].
  apply strip_literal_Some in E as ->.
  destruct (nonspace_run_spec after) as (rest & Ha & Hn & He).
  destruct (nonspace_run after) as [|c run] eqn:Er; [done|].
  intros [= <-]. exists rest. by rewrite <- Ha.
Qed.

Lemma match_kv_here_value key c rest :
  is_space c = false → is_Some (match_kv_here key (key ++ (c :: rest))).
Proof.
  intros Hc. unfold match_kv_here. rewrite strip_literal_app. simpl.
  rewrite Hc. eauto.
Qed.

Lemma search_kv_cons key c s :
  search_kv key (c :: s) =
  match match_kv_here key (c :: s) with
  | Some v => Some v
  | None => search_kv key s
  end.
Proof. reflexivity. Qed.

Lemma search_kv_nil key : search_kv key [] = None.
Proof.
  simpl. unfold match_kv_here.
  destruct (strip_literal key []) as [after|] eqn:E; [|done].
  apply strip_literal_Some in E. by destruct key, after.
Qed.

Lemma search_kv_value_after key line v :
  search_kv key line = Some v → value_after key line v.
Proof.
  induction line as [|ch line IH].
  - by rewrite search_kv_nil.
  - rewrite search_kv_cons.
    destruct (match_kv_here key (ch :: line)) as [v0|] eqn:E.
    + intros [= ->].
      destruct (match_kv_here_Some _ _ _ E) as (rest & Hl & Hv & Hn & He).
      exists [], rest. rewrite text_app_nil. split_and!; try done.
      intros; simpl; lia.
    + intros H. destruct (IH H) as (pre & rest & -> & Hv & Hn & He & Hmin).
      exists (ch :: pre), rest. split_and!; try done.
      intros [|ch' pre'] c rest' Hl Hc.
      * rewrite text_app_nil in Hl. rewrite Hl in E.
        destruct (match_kv_here_value key c rest' Hc) as [? E']. congruence.
      * rewrite !text_app_cons in Hl. injection Hl as _ Hl.
        simpl. apply le_n_S. eauto.
Qed.

Lemma search_kv_has_value key line :
  has_value key line → is_Some (search_kv key line).
Proof.
  intros (pre & c & rest & -> & Hc). induction pre as [|ch pre IH].
  - rewrite text_app_nil.
    destruct (match_kv_here_value key c rest Hc) as [v E].
    destruct (key ++ (c :: rest)) as [|c0 s0] eqn:Es.
    + by destruct key.
    + rewrite search_kv_cons, E. eauto.
  - rewrite text_app_cons, search_kv_cons.
    by destruct (match_kv_here _ _); [eauto|].
Qed.

Lemma value_after_has_value key line v : value_after key line v → has_value key line.
Proof.
  intros (pre & rest & -> & Hv & Hn & _).
  destruct v as [|c v]; [done|]. simpl in Hn.
  apply andb_true_iff in Hn as [Hc _]. apply negb_true_iff in Hc.
  exists pre, c, (v ++ rest). by rewrite text_app_cons.
Qed.

Lemma search_kv_field key dflt line :
  field_is key dflt line (default dflt (search_kv key line)).
Proof.
  destruct (search_kv key line) as [v|] eqn:E; simpl.
  - left. pose proof (search_kv_value_after _ _ _ E) as Hv.
    eauto using value_after_has_value.
  - right. split; [|done]. intros H.
    apply search_kv_has_value in H as [? H]. congruence.
Qed.



Lemma match_status_here_prefix ch pre w rest :
  match_status_here (ch :: pre ++ w :: rest) = None →
  match_status_here (ch :: pre ++ [w]) = None.
Proof.
  destruct pre as [|p1 [|p2 [|p3 [|p4 pre]]]];
    rewrite ?text_app_cons, ?text_app_nil; done.
Qed.

Lemma search_status_first_token line tok :
  search_status line = Some tok → first_status_token line tok.
Proof.
  induction line as [|ch line IH]; [done|].
  rewrite search_status_cons.
  destruct (match_status_here (ch :: line)) as [t|] eqn:E.
  - intros [= ->].
    destruct (match_status_here_Some _ _ E)
      as (pre & w & a & b & c & w' & post & Hl & Hw & Ha & Hb & Hc & Hw' & Ht).
    clear pre Hl.
    destruct line as [|a0 [|b0 [|c0 [|w0 post0]]]]; try done.
    simpl in E.
    destruct (is_space ch) eqn:E1, (is_digit a0) eqn:E2, (is_digit b0) eqn:E3,
      (is_digit c0) eqn:E4, (is_space w0) eqn:E5; try done.
    injection E as <-.
    exists [], ch, a0, b0, c0, w0, post0. rewrite text_app_nil.
    split_and!; try done.
    intros tok' H. by apply status_token_found in H.
  - intros H.
    destruct (IH H)
      as (pre & w & a & b & c & w' & post & -> & Hw & Ha & Hb & Hc & Hw' & Ht & Hfirst).
    exists (ch :: pre), w, a, b, c, w', post. split_and!; try done.
    intros tok' Htok. apply status_token_found in Htok. apply Htok.
    rewrite text_app_cons, search_status_cons.
    rewrite (match_status_here_prefix _ _ _ _ E).
    destruct (search_status (pre ++ (w :: []))) as [t|] eqn:Es; [|done].
    exfalso. apply (Hfirst t). by apply search_status_token.
Qed.

(** X11. The status of a line is a number from 0 to 999: the value of the
    leftmost run of exactly three decimal digits (of any script) that stands
    between two white-space characters, or 0 when the line has no such run
    (a status at the very start or end of the line, or of another length, is
    not seen). *)
Theorem status_is_first_three_digit_token line r :
  extract_fields line = Ok r →
  0 ≤ status r ≤ 999
  ∧ ((∃ a b c,
        first_status_token line [a; b; c]
        ∧ status r = 100 * digit_value a + 10 * digit_value b + digit_value c)
     ∨ ((∀ tok, ¬ status_token line tok) ∧ status r = 0)).
Proof.
  rewrite extract_fields_Ok. intros [= <-]. unfold fields, RE_STATUS; simpl.
  destruct (search_status line) as [tok|] eqn:E; simpl.
  - pose proof (search_status_first_token _ _ E) as Hf.
    destruct Hf as (pre & w & a & b & c & w' & post & Hl & Hw & Ha & Hb & Hc & Hw' & -> & Hfirst).
    pose proof (digit_value_range _ Ha). pose proof (digit_value_range _ Hb).
    pose proof (digit_value_range _ Hc).
    split; [simpl; lia|]. left. exists a, b, c. split; [|done].
    by exists pre, w, a, b, c, w', post.
  - split; [lia|]. right. split; [|done].
    intros tok H. by apply status_token_found in H.
Qed.

(** The runs [1234] and [2000] are too long; the first token of three
    digits is made of the Arabic-Indic digits five, zero, three (1637, 1632,
    1635) between two EM SPACEs (8195), before [404]. *)
Lemma status_is_first_three_digit_token_witness :
  0 ≤ status (fields (str "GET /1234 2000" ++ [8195; 1637; 1632; 1635; 8195]
                        ++ str "404 500 ")) ≤ 999
  ∧ status (fields (str "GET /1234 2000" ++ [8195; 1637; 1632; 1635; 8195]
                      ++ str "404 500 ")) = 503.
Proof.
  destruct (status_is_first_three_digit_token
              (str "GET /1234 2000" ++ [8195; 1637; 1632; 1635; 8195] ++ str "404 500 ")
              (fields (str "GET /1234 2000" ++ [8195; 1637; 1632; 1635; 8195]
                         ++ str "404 500 "))) as [H _];
    [apply extract_fields_Ok|].
  split; [exact H|reflexivity].
Defined.

(** ** The follower *)

Lemma text_app_assoc (a b c : text) : (a ++ b) ++ c = a ++ (b ++ c).
Proof. by rewrite app_assoc. Qed.

Lemma text_app_nil_r (s : text) : s ++ [] = s.
Proof. apply app_nil_r. Qed.

Lemma no_char_app x a b : no_char x (a ++ b) = no_char x a && no_char x b.
Proof.
  induction a as [|c a IH]; [done|]. simpl. by rewrite IH, andb_assoc.
Qed.

Lemma cr_free_append data acts :
  cr_free (Append data :: acts) →
  no_char carriage_return data = true ∧ cr_free acts.
Proof.
  unfold cr_free. cbn [appended]. rewrite no_char_app.
  by intros [? ?]%andb_true_iff.
Qed.

Lemma readline_nil_inv u : fst (readline u) = [] → u = [].
Proof.
  destruct u as [|c u]; [done|]. simpl.
  destruct (c =? line_feed); [done|].
  destruct (c =? carriage_return); [done|]. by destruct (readline u).
Qed.

(** On text without carriage return, [readline] cuts at the first line
    feed and leaves the characters as they are. *)
Lemma readline_spec u :
  no_char carriage_return u = true →
  u = fst (readline u) ++ snd (readline u)
  ∧ no_char carriage_return (snd (readline u)) = true
  ∧ (fst (readline u) ≠ [] → line_or_fragment (fst (readline u))).
Proof.
  induction u as [|c u IH]; [done|]. simpl. intros Hcr.
  apply andb_true_iff in Hcr as [Hc Hcr]. apply negb_true_iff in Hc.
  destruct (IH Hcr) as (Hu & Hrest & Hl). rewrite Hc.
  destruct (Z.eqb_spec c line_feed) as [->|Hlf].
  - simpl. split; [done|]. split; [done|]. intros _. split; [done|].
    exists []. split; [done|]. by right.
  - destruct (readline u) as [l rest]; simpl in *.
    split; [by rewrite <- Hu|]. split; [done|]. intros _.
    split; [done|].
    assert ((c =? line_feed) = false) as Hcb by (by apply Z.eqb_neq).
    destruct l as [|x l].
    + exists [c]. simpl. rewrite Hcb. split; [done|]. by left.
    + destruct Hl as (_ & body & Hb & Hl); [done|].
      exists (c :: body). simpl. rewrite Hcb, Hb. split; [done|].
      destruct Hl as [->| ->]; [by left|by right].
Qed.

(** A carriage return ends a line, alone or with the line feed that follows
    it, and the line is handed over with a line feed in its place: on such
    text the characters are not conserved. *)
Lemma readline_carriage_return body rest :
  no_char line_feed body = true → no_char carriage_return body = true →
  readline (body ++ carriage_return :: line_feed :: rest) = (body ++ [line_feed], rest)
  ∧ (∀ c, c ≠ line_feed →
       readline (body ++ carriage_return :: c :: rest) = (body ++ [line_feed], c :: rest))
  ∧ readline (body ++ [carriage_return]) = (body ++ [line_feed], []).
Proof.
  induction body as [|b body IH]; intros Hb Hcr.
  - split_and!; [done| |done]. intros c Hc. simpl.
    by replace (c =? line_feed) with false by (symmetry; by apply Z.eqb_neq).
  - simpl in Hb, Hcr.
    apply andb_true_iff in Hb as [Hc Hb]. apply negb_true_iff in Hc.
    apply andb_true_iff in Hcr as [Hc' Hcr]. apply negb_true_iff in Hc'.
    destruct (IH Hb Hcr) as (H1 & H2 & H3).
    rewrite !text_app_cons. split_and!.
    + cbn [readline]. by rewrite Hc, Hc', H1.
    + intros c Hne. rewrite text_app_cons. cbn [readline].
      by rewrite Hc, Hc', (H2 c Hne).
    + cbn [readline]. by rewrite Hc, Hc', H3.
Qed.

Lemma exec_cons cfg a acts w :
  exec cfg (a :: acts) w =
  (fst (exec cfg acts (fst (step cfg a w))),
   snd (step cfg a w) ++ snd (exec cfg acts (fst (step cfg a w)))).
Proof.
  simpl. destruct (step cfg a w) as [w' evs]; simpl.
  by destruct (exec cfg acts w').
Qed.

Lemma exec_app cfg acts1 acts2 w :
  exec cfg (acts1 ++ acts2) w =
  (fst (exec cfg acts2 (fst (exec cfg acts1 w))),
   snd (exec cfg acts1 w) ++ snd (exec cfg acts2 (fst (exec cfg acts1 w)))).
Proof.
  revert w. induction acts1 as [|a acts1 IH]; intros w.
  - simpl. by destruct (exec cfg acts2 w).
  - rewrite <- app_comm_cons, !exec_cons, IH. cbn [fst snd]. by rewrite app_assoc.
Qed.

Lemma handled_lines_app evs1 evs2 :
  handled_lines (evs1 ++ evs2) = handled_lines evs1 ++ handled_lines evs2.
Proof.
  induction evs1 as [|[| | |l o] evs1 IH]; simpl; by rewrite ?IH.
Qed.

Lemma run_step_following cfg env w u :
  proc w = Following u →
  (fst (readline u) = [] ∧ run_step cfg env w = (w, [Sleep 200]))
  ∨ (fst (readline u) ≠ []
     ∧ run_step cfg env w =
       ({| log_file := log_file w; proc := Following (snd (readline u));
           globals := fst (main_step cfg env (fst (readline u)) (globals w)) |},
        [Handled (fst (readline u))
           (snd (main_step cfg env (fst (readline u)) (globals w)))])).
Proof.
  intros Hp. unfold run_step. rewrite Hp.
  destruct (readline u) as [[|c l] rest]; cbn [fst snd]; [by left|right].
  split; [done|]. by destruct (main_step _ _ _ _).
Qed.

(** The loop of [follow] on a file without carriage return: the characters
    are conserved, and what is unread stays free of carriage return. *)
Lemma follow_conservation cfg acts w u :
  proc w = Following u →
  no_char carriage_return u = true → cr_free acts →
  ∃ u', proc (fst (exec cfg acts w)) = Following u'
    ∧ no_char carriage_return u' = true
    ∧ u ++ appended acts
      = concat_lines (handled_lines (snd (exec cfg acts w))) ++ u'
    ∧ Forall line_or_fragment (handled_lines (snd (exec cfg acts w))).
Proof.
  intros Hp. revert w u Hp.
  induction acts as [|[data|env] acts IH]; intros w u Hp Hu Hacts.
  - exists u. simpl. by rewrite text_app_nil_r.
  - rewrite exec_cons. cbn [step fst snd app appended].
    apply cr_free_append in Hacts as [Hdata Hacts].
    destruct (IH (append_data data w) (u ++ data)) as (u' & Hp' & Hu' & Hc & Hl).
    { unfold append_data; simpl. by rewrite Hp. }
    { by rewrite no_char_app, Hu, Hdata. }
    { done. }
    exists u'. by rewrite <- text_app_assoc.
  - rewrite exec_cons. cbn [step appended].
    destruct (readline_spec u Hu) as (Hsplit & Hrest & Hl).
    destruct (run_step_following cfg env w u Hp) as [[Hr ->]|[Hr ->]]; cbn [fst snd].
    + apply (IH w u Hp Hu Hacts).
    + match goal with |- context [exec cfg acts ?w'] =>
        destruct (IH w' (snd (readline u)) eq_refl Hrest Hacts)
          as (u' & Hp' & Hu' & Hc & Hls) end.
      exists u'. split; [done|]. split; [done|].
      cbn [app handled_lines concat_lines]. split.
      * rewrite text_app_assoc, <- Hc, <- text_app_assoc, <- Hsplit. done.
      * constructor; [by apply Hl|done].
Qed.

(** X12. On a log without carriage return (and written in whole
    characters, as the model of the file has it), once [follow] is in its
    loop, nothing of the file is lost, read twice or reordered: what was unread
    plus what is appended is, in order, the lines handed to [handle_line]
    followed by what is still unread.  Each line handed over is non-empty
    and has no line feed but at its end; it lacks one when the line was read
    before the server finished writing it. *)
Theorem follow_loses_nothing cfg acts w u :
  proc w = Following u →
  no_char carriage_return u = true → cr_free acts →
  ∃ u', proc (fst (exec cfg acts w)) = Following u'
    ∧ u ++ appended acts
      = concat_lines (handled_lines (snd (exec cfg acts w))) ++ u'
    ∧ Forall line_or_fragment (handled_lines (snd (exec cfg acts w))).
Proof.
  intros Hp Hu Hacts.
  destruct (follow_conservation cfg acts w u Hp Hu Hacts)
    as (u' & Hp' & _ & Hc & Hl).
  by exists u'.
Qed.

Lemma follow_loses_nothing_witness :
  ∃ u',
    [] ++ appended
            [Append (str "GET / 200 pool=blue " ++ line_feed :: str "GET / 5");
             Run (env_at 1762214400 Delivered);
             Run (env_at 1762214401 Delivered);
             Append (str "02 pool=blue " ++ [line_feed]);
             Run (env_at 1762214402 Delivered)]
    = concat_lines
        [str "GET / 200 pool=blue " ++ [line_feed];
         str "GET / 5";
         str "02 pool=blue " ++ [line_feed]] ++ u'.
Proof.
  destruct (follow_loses_nothing webhook_config
              [Append (str "GET / 200 pool=blue " ++ line_feed :: str "GET / 5");
               Run (env_at 1762214400 Delivered);
               Run (env_at 1762214401 Delivered);
               Append (str "02 pool=blue " ++ [line_feed]);
               Run (env_at 1762214402 Delivered)]
              {| log_file := Some []; proc := Following [];
                 globals := initial_state (empty_window 200) |} [])
    as (u' & _ & Hc & _); [reflexivity..|].
  exists u'. exact Hc.
Defined.

Lemma following_persists cfg acts w u :
  proc w = Following u → ∃ u', proc (fst (exec cfg acts w)) = Following u'.
Proof.
  revert w u. induction acts as [|[data|env] acts IH]; intros w u Hp.
  - by exists u.
  - rewrite exec_cons. cbn [step fst].
    apply (IH _ (u ++ data)). unfold append_data; simpl. by rewrite Hp.
  - rewrite exec_cons. cbn [step fst].
    destruct (run_step_following cfg env w u Hp) as [[_ ->]|[_ ->]]; cbn [fst].
    + by apply (IH w u).
    + by eapply IH.
Qed.

Lemma nothing_handled_before_following cfg acts w :
  (∀ u, proc w ≠ Following u) →
  (∀ u, proc (fst (exec cfg acts w)) ≠ Following u) →
  handled_lines (snd (exec cfg acts w)) = [].
Proof.
  revert w. induction acts as [|[data|env] acts IH]; intros w Hw Hend; [done| |].
  - rewrite exec_cons in *. cbn [step fst snd app] in *. apply IH; [|done].
    intros u. unfold append_data; simpl. destruct (proc w) eqn:E; try done.
    by destruct (Hw unread).
  - rewrite exec_cons in *. cbn [step fst snd] in *.
    rewrite handled_lines_app.
    unfold run_step in *. destruct (proc w) as [| |u0|u0] eqn:E.
    + destruct (log_file w); cbn [fst snd] in *; simpl; apply IH; try done.
    + destruct (log_file w); cbn [fst snd] in *; simpl; apply IH; try done.
      intros u. by rewrite E.
    + cbn [fst snd] in *. exfalso.
      destruct (following_persists cfg acts (set_proc (Following []) w) [] eq_refl)
        as [u' Hu']. by apply (Hend u').
    + by destruct (Hw u0).
Qed.

(** X13. [follow] starts at the end of the file: nothing is handed to
    [handle_line] before [follow] has moved to the end, and whatever the file
    holds at that moment (its content when the watcher starts, or when the
    file is found, and what is appended before the move) is left unread.
    When what is appended afterwards has no carriage return, the lines
    handled are made of it only: they are, in order, its beginning. *)
Theorem follow_starts_at_the_end cfg acts1 env acts2 w0 u :
  proc w0 = NotStarted →
  proc (fst (exec cfg acts1 w0)) = Opened u →
  handled_lines (snd (exec cfg acts1 w0)) = []
  ∧ proc (fst (exec cfg (acts1 ++ [Run env]) w0)) = Following []
  ∧ (cr_free acts2 →
     ∃ u', proc (fst (exec cfg (acts1 ++ Run env :: acts2) w0)) = Following u'
       ∧ appended acts2
         = concat_lines (handled_lines (snd (exec cfg (acts1 ++ Run env :: acts2) w0)))
           ++ u').
Proof.
  intros H0 Hopen.
  assert (handled_lines (snd (exec cfg acts1 w0)) = []) as Hnone.
  { apply nothing_handled_before_following; intros u'; by rewrite ?H0, ?Hopen. }
  split; [done|]. split.
  - rewrite exec_app. cbn [fst exec step].
    unfold run_step. by rewrite Hopen.
  - intros Hcr. rewrite exec_app, exec_cons. cbn [fst snd step].
    unfold run_step at 1 2 3. rewrite Hopen. cbn [fst snd].
    destruct (follow_conservation cfg acts2
                (set_proc (Following []) (fst (exec cfg acts1 w0))) [])
      as (u' & Hp & _ & Hc & _); [done..|].
    exists u'. split; [done|].
    rewrite handled_lines_app, Hnone. cbn [app]. by rewrite text_app_nil in Hc.
Qed.

(** The file holds a line when the watcher starts; another is appended once
    [follow] has moved to the end: only that one is handled. *)
Lemma follow_starts_at_the_end_witness :
  ∃ u',
    appended [Append (str "GET / 502 pool=green " ++ [line_feed]);
              Run (env_at 1762214402 Delivered)]
    = concat_lines
        (handled_lines
           (snd (exec webhook_config
                   ([Run (env_at 1762214400 Delivered)]
                    ++ Run (env_at 1762214401 Delivered)
                       :: [Append (str "GET / 502 pool=green " ++ [line_feed]);
                           Run (env_at 1762214402 Delivered)])
                   {| log_file := Some (str "GET / 200 pool=blue " ++ [line_feed]);
                      proc := NotStarted;
                      globals := initial_state (empty_window 200) |})))
      ++ u'.
Proof.
  destruct (follow_starts_at_the_end webhook_config
              [Run (env_at 1762214400 Delivered)]
              (env_at 1762214401 Delivered)
              [Append (str "GET / 502 pool=green " ++ [line_feed]);
               Run (env_at 1762214402 Delivered)]
              {| log_file := Some (str "GET / 200 pool=blue " ++ [line_feed]);
                 proc := NotStarted;
                 globals := initial_state (empty_window 200) |}
              (str "GET / 200 pool=blue " ++ [line_feed]))
    as (_ & _ & H); [reflexivity..|].
  destruct H as (u' & _ & Hc); [reflexivity|].
  exists u'. exact Hc.
Defined.

Lemma exec_waiting cfg envs w :
  proc w = WaitingForFile → log_file w = None →
  exec cfg (map Run envs) w = (w, repeat (Sleep 1000) (length envs)).
Proof.
  intros Hp Hf. induction envs as [|env envs IH]; [done|].
  cbn [map]. rewrite exec_cons. cbn [step].
  unfold run_step. rewrite Hp, Hf. cbn [fst snd]. by rewrite IH.
Qed.

(** X14. A log file that does not exist when the watcher starts is waited
    for: the program prints that it is not found, once, then checks every
    second without handling anything; when the file appears it is opened at
    the next check, and [follow] moves to its end, so that the lines the
    file was created with are skipped and the watcher goes on as if it had
    started on that file. *)
Theorem missing_log_file_is_waited_for cfg env0 envs data env1 env2 acts st :
  exec cfg (map Run (env0 :: envs) ++ [Append data; Run env1; Run env2] ++ acts)
    {| log_file := None; proc := NotStarted; globals := st |}
  = (fst (exec cfg acts {| log_file := Some data; proc := Following []; globals := st |}),
     Started :: LogFileNotFound :: repeat (Sleep 1000) (length envs + 1)
     ++ snd (exec cfg acts {| log_file := Some data; proc := Following []; globals := st |})).
Proof.
  cbn [map]. rewrite <- app_comm_cons, exec_cons. cbn [step fst snd].
  unfold run_step at 1 2 3. cbn [proc log_file fst snd].
  rewrite exec_app, exec_waiting by done. cbn [fst snd].
  rewrite <- !app_comm_cons, !exec_cons. cbn [step fst snd app].
  unfold append_data, set_proc, run_step; cbn.
  replace (length envs + 1)%nat with (S (length envs)) by lia.
  cbn [repeat]. rewrite repeat_cons, <- app_assoc. reflexivity.
Qed.

Lemma concat_lines_app ls1 ls2 :
  concat_lines (ls1 ++ ls2) = concat_lines ls1 ++ concat_lines ls2.
Proof.
  induction ls1 as [|l ls1 IH]; [done|]. simpl. by rewrite IH, text_app_assoc.
Qed.

Lemma readline_body body rest :
  no_char line_feed body = true → no_char carriage_return body = true →
  readline (body ++ line_feed :: rest) = (body ++ [line_feed], rest).
Proof.
  induction body as [|c body IH]; intros Hb Hcr.
  - reflexivity.
  - simpl in Hb, Hcr.
    apply andb_true_iff in Hb as [Hc Hb]. apply negb_true_iff in Hc.
    apply andb_true_iff in Hcr as [Hc' Hcr]. apply negb_true_iff in Hc'.
    rewrite !text_app_cons. cbn [readline].
    by rewrite Hc, Hc', IH.
Qed.

Lemma readline_whole_line l rest :
  whole_line l → l ≠ [] ∧ readline (l ++ rest) = (l, rest).
Proof.
  intros (body & Hb & Hcr & ->). split; [by destruct body|].
  rewrite text_app_assoc, text_app_cons, text_app_nil. by apply readline_body.
Qed.

(** X15. When the server appends whole lines only, [follow] never cuts a
    line: the lines handed to [handle_line] are the first of the lines
    written, whole and in the order they were written, and what is unread is
    made of the lines that follow them. *)
Theorem follow_yields_whole_lines cfg bs w pending :
  proc w = Following (concat_lines pending) →
  Forall whole_line pending → Forall whole_line (burst_lines bs) →
  ∃ rest,
    proc (fst (exec cfg (map burst_action bs) w)) = Following (concat_lines rest)
    ∧ pending ++ burst_lines bs
      = handled_lines (snd (exec cfg (map burst_action bs) w)) ++ rest.
Proof.
  revert w pending. induction bs as [|[ls|env] bs IH]; intros w pending Hp Hpen Hbs.
  - exists pending. simpl. by rewrite app_nil_r.
  - cbn [map burst_action burst_lines] in *. rewrite exec_cons. cbn [step fst snd app].
    apply Forall_app in Hbs as [Hls Hbs].
    destruct (IH (append_data (concat_lines ls) w) (pending ++ ls)) as (rest & Hp' & Hl).
    + unfold append_data; simpl. by rewrite Hp, concat_lines_app.
    + by apply Forall_app.
    + done.
    + exists rest. by rewrite app_assoc.
  - cbn [map burst_action burst_lines] in *. rewrite exec_cons. cbn [step].
    destruct pending as [|l pending].
    + destruct (run_step_following cfg env w [] Hp) as [[_ ->]|[Hr _]]; [|done].
      cbn [fst snd app]. by apply (IH w []).
    + apply Forall_cons in Hpen as [Hl Hpen].
      destruct (readline_whole_line l (concat_lines pending) Hl) as [Hne Hrl].
      destruct (run_step_following cfg env w _ Hp) as [[Hr _]|[_ ->]].
      * cbn [concat_lines] in Hr. rewrite Hrl in Hr. done.
      * cbn [concat_lines]. rewrite Hrl. cbn [fst snd].
        match goal with |- context [exec cfg _ ?w'] =>
          destruct (IH w' pending eq_refl Hpen Hbs) as (rest & Hp' & Hls) end.
        exists rest. split; [done|].
        cbn [app handled_lines]. by rewrite Hls.
Qed.

Lemma follow_yields_whole_lines_witness :
  ∃ rest,
    [] ++ burst_lines
            [Lines [str "GET / 200 pool=blue " ++ [line_feed];
                    str "GET / 502 pool=green " ++ [line_feed]];
             Poll (env_at 1762214400 Delivered)]
    = [str "GET / 200 pool=blue " ++ [line_feed]] ++ rest.
Proof.
  destruct (follow_yields_whole_lines webhook_config
              [Lines [str "GET / 200 pool=blue " ++ [line_feed];
                      str "GET / 502 pool=green " ++ [line_feed]];
               Poll (env_at 1762214400 Delivered)]
              {| log_file := Some []; proc := Following [];
                 globals := initial_state (empty_window 200) |} [])
    as (rest & _ & Hl).
  - reflexivity.
  - constructor.
  - repeat constructor.
    + exists (str "GET / 200 pool=blue "). by split_and!.
    + exists (str "GET / 502 pool=green "). by split_and!.
  - exists rest. exact Hl.
Defined.

(** X16. [main] on a file that receives whole lines is the loop over these
    lines: after as many turns of [follow] as there are lines, each line has
    been handled once, in order, the globals are those [main_loop] ends
    with, and each line's outputs are those [main_loop] gives for it. *)
Theorem main_handles_the_lines_in_order cfg lines envs w :
  proc w = Following (concat_lines lines) →
  Forall whole_line lines → length envs = length lines →
  exec cfg (map Run envs) w
  = ({| log_file := log_file w; proc := Following [];
        globals := fst (main_loop cfg (zip lines envs) (globals w)) |},
     zip_with Handled lines (snd (main_loop cfg (zip lines envs) (globals w)))).
Proof.
  revert envs w. induction lines as [|l lines IH]; intros envs w Hp Hall Hlen.
  - destruct envs; [|done]. simpl. destruct w; simpl in *. by rewrite Hp.
  - destruct envs as [|env envs]; [done|]. injection Hlen as Hlen.
    apply Forall_cons in Hall as [Hl Hall].
    destruct (readline_whole_line l (concat_lines lines) Hl) as [Hne Hrl].
    cbn [map]. rewrite exec_cons. cbn [step].
    destruct (run_step_following cfg env w _ Hp) as [[Hr _]|[_ ->]].
    + cbn [concat_lines] in Hr. rewrite Hrl in Hr. done.
    + cbn [concat_lines]. rewrite Hrl. cbn [fst snd].
      rewrite IH by done. cbn [log_file globals fst snd zip zip_with].
      rewrite main_loop_cons, main_step_eq. reflexivity.
Qed.

Lemma main_handles_the_lines_in_order_witness :
  handled_outputs
    (snd (exec webhook_config
            [Run (env_at 1762214400 Delivered); Run (env_at 1762214401 Delivered)]
            {| log_file := Some [];
               proc := Following
                 (concat_lines [str "GET / 200 pool=blue release=v1 " ++ [line_feed];
                                str "GET / 200 pool=green release=v2 " ++ [line_feed]]);
               globals := initial_state (empty_window 200) |}))
  = [[]; [HttpPost "https://hooks.example/T0"
            (FailoverMsg (str "blue") (str "green") (str "v2") [] "2026-11-04T00:00:00");
          Print PostedToSlack]].
Proof.
  rewrite (main_handles_the_lines_in_order webhook_config
             [str "GET / 200 pool=blue release=v1 " ++ [line_feed];
              str "GET / 200 pool=green release=v2 " ++ [line_feed]]
             [env_at 1762214400 Delivered; env_at 1762214401 Delivered]).
  - reflexivity.
  - reflexivity.
  - repeat constructor.
    + exists (str "GET / 200 pool=blue release=v1 "). by split_and!.
    + exists (str "GET / 200 pool=green release=v2 "). by split_and!.
  - reflexivity.
Defined.

(** ** The maintenance flag *)

Lemma lower_char_t c : lower_char c = "t"%char → c = "t"%char ∨ c = "T"%char.
Proof. destruct c as [[] [] [] [] [] [] [] []]; vm_compute; intros H; try discriminate H; auto. Qed.
Lemma lower_char_r c : lower_char c = "r"%char → c = "r"%char ∨ c = "R"%char.
Proof. destruct c as [[] [] [] [] [] [] [] []]; vm_compute; intros H; try discriminate H; auto. Qed.
Lemma lower_char_u c : lower_char c = "u"%char → c = "u"%char ∨ c = "U"%char.
Proof. destruct c as [[] [] [] [] [] [] [] []]; vm_compute; intros H; try discriminate H; auto. Qed.
Lemma lower_char_e c : lower_char c = "e"%char → c = "e"%char ∨ c = "E"%char.
Proof. destruct c as [[] [] [] [] [] [] [] []]; vm_compute; intros H; try discriminate H; auto. Qed.
Lemma lower_char_y c : lower_char c = "y"%char → c = "y"%char ∨ c = "Y"%char.
Proof. destruct c as [[] [] [] [] [] [] [] []]; vm_compute; intros H; try discriminate H; auto. Qed.
Lemma lower_char_s c : lower_char c = "s"%char → c = "s"%char ∨ c = "S"%char.
Proof. destruct c as [[] [] [] [] [] [] [] []]; vm_compute; intros H; try discriminate H; auto. Qed.
Lemma lower_char_1 c : lower_char c = "1"%char → c = "1"%char.
Proof. destruct c as [[] [] [] [] [] [] [] []]; vm_compute; intros H; try discriminate H; auto. Qed.

Lemma lower_cons_inv v a rest :
  lower v = String a rest → ∃ c v', v = String c v' ∧ lower_char c = a ∧ lower v' = rest.
Proof. destruct v as [|c v']; [done|]. simpl. intros [= <- <-]. eauto. Qed.

Lemma lower_nil_inv v : lower v = "" → v = "".
Proof. by destruct v. Qed.

(** X17. Maintenance mode is on exactly when the variable [MAINTENANCE_MODE]
    is set to [true], [yes] or [1], in any mix of capitals and small letters;
    it is off when the variable is not set, and for any other text (its
    white space is not stripped: [true] followed by a blank is off). *)
Theorem maintenance_mode_spellings :
  maintenance_mode_of None = false
  ∧ ∀ v, maintenance_mode_of (Some v) = true ↔ v ∈ maintenance_spellings.
Proof.
  split; [reflexivity|]. intros v. unfold maintenance_mode_of. simpl default. split.
  - intros H. apply orb_true_iff in H as [H|H]; [apply orb_true_iff in H as [H|H]|];
      apply String.eqb_eq in H.
    + apply lower_cons_inv in H as (c1 & v1 & -> & H1 & H).
      apply lower_cons_inv in H as (c2 & v2 & -> & H2 & H).
      apply lower_cons_inv in H as (c3 & v3 & -> & H3 & H).
      apply lower_cons_inv in H as (c4 & v4 & -> & H4 & H).
      apply lower_nil_inv in H as ->.
      apply lower_char_t in H1. apply lower_char_r in H2.
      apply lower_char_u in H3. apply lower_char_e in H4.
      apply list_elem_of_In.
      destruct H1 as [-> | ->], H2 as [-> | ->], H3 as [-> | ->], H4 as [-> | ->];
        simpl; tauto.
    + apply lower_cons_inv in H as (c1 & v1 & -> & H1 & H).
      apply lower_cons_inv in H as (c2 & v2 & -> & H2 & H).
      apply lower_cons_inv in H as (c3 & v3 & -> & H3 & H).
      apply lower_nil_inv in H as ->.
      apply lower_char_y in H1. apply lower_char_e in H2. apply lower_char_s in H3.
      apply list_elem_of_In.
      destruct H1 as [-> | ->], H2 as [-> | ->], H3 as [-> | ->]; simpl; tauto.
    + apply lower_cons_inv in H as (c1 & v1 & -> & H1 & H).
      apply lower_nil_inv in H as ->. apply lower_char_1 in H1 as ->.
      apply list_elem_of_In. simpl; tauto.
  - intros H. unfold maintenance_spellings in H.
    repeat (apply elem_of_cons in H as [->|H]; [reflexivity|]).
    by apply elem_of_nil in H.
Qed.

(** ** Lines without a pool, and runs without delivery *)

(** X18. A line in which [pool=] has no value (a blank line, a line cut
    short) while a pool other than ["unknown"] is tracked counts as a change
    of pool: it runs the failover alert from the tracked pool to
    ["unknown"], and ["unknown"] becomes the tracked pool. *)
Theorem line_without_pool_is_a_failover cfg env line st seen :
  ¬ has_value (str "pool=") line →
  last_seen_pool st = Some seen → seen ≠ str "unknown" →
  pool (fields line) = str "unknown"
  ∧ (∃ rest,
       snd (main_step cfg env line st) =
       failover_alert cfg env (default 0 (last_alert_time st !! "failover")) seen
         (fields line) ++ rest)
  ∧ last_seen_pool (fst (main_step cfg env line st)) = Some (str "unknown").
Proof.
  intros Hno Hseen Hne.
  assert (pool (fields line) = str "unknown") as Hp.
  { destruct (search_kv_field (str "pool=") (str "unknown") line) as [[H _]|[_ H]]; [done|].
    exact H. }
  split; [done|]. rewrite main_step_eq. split.
  - apply process_record_flip; [done|]. by rewrite Hp.
  - by rewrite process_record_tracks, Hp.
Qed.

Lemma line_without_pool_is_a_failover_witness :
  ∃ rest,
    snd (main_step webhook_config (env_at 1762214400 Delivered)
           [line_feed] (tracking_blue 0 0))
    = [HttpPost "https://hooks.example/T0"
         (FailoverMsg (str "blue") (str "unknown") (str "unknown") [] "2026-11-04T00:00:00");
       Print PostedToSlack] ++ rest.
Proof.
  destruct (line_without_pool_is_a_failover webhook_config
              (env_at 1762214400 Delivered) [line_feed]
              (tracking_blue 0 0) (str "blue")) as (_ & H & _).
  - intros H. apply search_kv_has_value in H as [v H]. vm_compute in H. discriminate.
  - reflexivity.
  - discriminate.
  - exact H.
Defined.

Lemma post_slack_undelivered cfg net m :
  MAINTENANCE_MODE cfg = true ∨ no_webhook (SLACK_WEBHOOK_URL cfg) = true →
  fst (post_slack cfg net m) = false.
Proof.
  unfold post_slack. intros [->| ->]; [done|].
  by destruct (MAINTENANCE_MODE cfg).
Qed.

Lemma process_record_undelivered cfg env r st :
  MAINTENANCE_MODE cfg = true ∨ no_webhook (SLACK_WEBHOOK_URL cfg) = true →
  last_alert_time (fst (process_record cfg env r st)) = last_alert_time st.
Proof.
  intros H. rewrite process_record_eq; cbn [fst].
  destruct (update_rolling_window_keeps cfg r st) as (Hp & Ht & _).
  assert (last_alert_time
            (fst (detect_pool_flip cfg env r (update_rolling_window cfg r st)))
          = last_alert_time st) as Hd.
  { destruct (last_seen_pool (update_rolling_window cfg r st)) as [seen|] eqn:E.
    - destruct (decide (pool r = seen)) as [<-|Hne].
      + by rewrite detect_pool_flip_same.
      + rewrite (detect_pool_flip_change _ _ _ _ _ E Hne); simpl.
        by rewrite post_slack_undelivered, andb_false_r.
    - by rewrite detect_pool_flip_first. }
  destruct (alert_error_rate_cases cfg env
    (fst (detect_pool_flip cfg env r (update_rolling_window cfg r st))))
    as [->|(rate & E & G)]; [done|].
  rewrite (alert_error_rate_fires _ _ _ _ E G); simpl.
  by rewrite post_slack_undelivered, andb_false_r.
Qed.

(** X19. With maintenance mode on, or without a webhook, nothing is ever
    delivered and the cooldown timestamps never move, whatever the lines:
    they keep the value they have at start. *)
Theorem no_delivery_no_cooldown cfg input st :
  MAINTENANCE_MODE cfg = true ∨ no_webhook (SLACK_WEBHOOK_URL cfg) = true →
  last_alert_time (fst (main_loop cfg input st)) = last_alert_time st
  ∧ Forall (Forall (λ o, is_http_post o = false)) (snd (main_loop cfg input st)).
Proof.
  intros H. revert st. induction input as [|[line env] input IH]; intros st.
  - split; [done|constructor].
  - rewrite main_loop_cons; cbn [fst snd]. destruct (IH
      (fst (process_record cfg env (fields line) st))) as [Ht Ho].
    split; [by rewrite Ht, process_record_undelivered|].
    constructor; [|done].
    rewrite process_record_eq; cbn [snd]. apply Forall_app. split.
    + destruct (detect_pool_flip_outputs cfg env (fields line)
                  (update_rolling_window cfg (fields line) st))
        as [->|(seen & _ & _ & ->)]; [constructor|].
      rewrite failover_alert_gates. unfold gates_in_order.
      destruct (negb _); [repeat constructor|].
      destruct (MAINTENANCE_MODE cfg); [repeat constructor|].
      destruct H as [H|H]; [done|]. rewrite H. repeat constructor.
    + destruct (alert_error_rate_outputs cfg env
        (fst (detect_pool_flip cfg env (fields line)
                (update_rolling_window cfg (fields line) st))))
        as [->|(rate & _ & _ & ->)]; [constructor|].
      rewrite error_rate_alert_gates. unfold gates_in_order.
      destruct (negb _); [repeat constructor|].
      destruct (MAINTENANCE_MODE cfg); [repeat constructor|].
      destruct H as [H|H]; [done|]. rewrite H. repeat constructor.
Qed.

Lemma no_delivery_no_cooldown_witness :
  last_alert_time
    (fst (main_loop default_config
            [(str "GET / 200 pool=blue ", env_at 1762214400 Delivered);
             (str "GET / 200 pool=green ", env_at 1762214401 Delivered)]
            (initial_state (empty_window 200))))
  = last_alert_time (initial_state (empty_window 200)).
Proof.
  apply (no_delivery_no_cooldown default_config). right. reflexivity.
Defined.
